(** * DocuSage backend: authentication core and upload path

    A shallow embedding of [backend/app/auth_utils.py],
    [backend/app/routers/auth.py] and [backend/app/routers/files.py].

    Python exceptions are an explicit result type, dictionaries are finite
    maps, the dictionaries that the code mutates live in a store of
    locations, and the SQLAlchemy session is a state threaded through the
    request handlers.  The collaborators that are not part of the
    repository (python-jose, passlib, the database server, the clock) are
    either parameters of the development or small symbolic models that are
    marked as such. *)

From Stdlib Require Import ZArith Lia List Ascii String.
From stdpp Require Import base decidable option list gmap strings fin_maps pretty.

Open Scope string_scope.
Open Scope Z_scope.

(** ** Python values and exceptions *)

(** [datetime] and [timedelta] have microsecond resolution; both are counted
    in microseconds, a [datetime] from the Unix epoch (UTC). *)
Definition datetime := Z.
Definition timedelta := Z.

(** The values that occur in token claims and in handler results. *)
Inductive pyval :=
| VNone
| VBool (b : bool)
| VInt (z : Z)
| VStr (s : string)
| VDatetime (t : datetime).

#[global] Instance pyval_eq_dec : EqDecision pyval.
Proof. solve_decision. Defined.

(** A Python [dict] with string keys. *)
Abbreviation pydict := (gmap string pyval).

(** [fastapi.HTTPException]: [headers] is [[]] when the code passes none. *)
Record HTTPException := mkHTTPException {
  status_code : Z;
  detail : string;
  headers : list (string * string)
}.

#[global] Instance HTTPException_eq_dec : EqDecision HTTPException.
Proof. solve_decision. Defined.

Definition HTTP_400_BAD_REQUEST : Z := 400.
Definition HTTP_401_UNAUTHORIZED : Z := 401.
Definition HTTP_500_INTERNAL_SERVER_ERROR : Z := 500.

(** [calendar.timegm(dt.utctimetuple())]: whole seconds since the epoch. *)
Definition timegm (dt : datetime) : Z := dt / 1000000.

(** ** python-jose, modelled symbolically

    [jose.jwt] is a collaborator outside the repository.  Its compact
    serialisation and its MAC are abstracted: a well-formed token records
    the header algorithm, the JSON payload and the key it was signed with,
    and a signature verifies exactly when the verification key is that key.
    The claim checks of [jwt.decode] follow the library's
    [_validate_claims] with the default options, as the application calls
    it (no audience, issuer, subject or access token, leeway 0). *)
Module Jose.

Inductive exn :=
| JWTError (msg : string)
| ExpiredSignatureError
| JWTClaimsError (msg : string)
| JWSError (msg : string)
| TypeError.

(** [isinstance(e, JWTError)]: the expiry and claims errors are
    subclasses, [JWSError] and [TypeError] are not. *)
Definition is_JWTError (e : exn) : bool :=
  match e with
  | JWTError _ | ExpiredSignatureError | JWTClaimsError _ => true
  | JWSError _ | TypeError => false
  end.

Inductive token :=
| Opaque (s : string)
| Jws (alg : string) (payload : pydict) (signed_with : string).

#[global] Instance token_eq_dec : EqDecision token.
Proof. solve_decision. Defined.

Inductive result (A : Type) :=
| Ok (a : A)
| Err (e : exn).
Arguments Ok {A} a.
Arguments Err {A} e.

Definition HMAC_ALGORITHMS : list string := ["HS256"; "HS384"; "HS512"].

Fixpoint contains (needle hay : string) : bool :=
  String.prefix needle hay ||
  match hay with
  | EmptyString => false
  | String _ rest => contains needle rest
  end.

(** [HMACKey] refuses secrets that look like public keys or
    certificates. *)
Definition invalid_strings : list string :=
  ["-----BEGIN PUBLIC KEY-----"; "-----BEGIN RSA PUBLIC KEY-----";
   "-----BEGIN CERTIFICATE-----"; "ssh-rsa"].

(** Whether [jwk.construct key alg] gives a key that can sign.  Only the
    HMAC family is modelled: the other algorithms need a parsed PEM key,
    which a plain string secret is not. *)
Definition can_sign (alg key : string) : bool :=
  bool_decide (alg ∈ HMAC_ALGORITHMS) &&
  negb (existsb (fun bad => contains bad key) invalid_strings).

Definition json_value (v : pyval) : bool :=
  match v with VDatetime _ => false | _ => true end.

Definition json_object (claims : pydict) : bool :=
  forallb (fun kv => json_value kv.2) (map_to_list claims).

(** [claims[k] = timegm(claims[k].utctimetuple())] when the claim is a
    [datetime]. *)
Definition intdate (claims : pydict) (k : string) : pydict :=
  match claims !! k with
  | Some (VDatetime t) => <[k := VInt (timegm t)]> claims
  | _ => claims
  end.

(** The in-place conversion that [jwt.encode] applies to the dictionary
    it is given. *)
Definition convert_time_claims (claims : pydict) : pydict :=
  foldl intdate claims ["exp"; "iat"; "nbf"].

(** [jws.sign] on the converted claims. *)
Definition sign (claims : pydict) (key alg : string) : result token :=
  if negb (can_sign alg key) then Err (JWSError "key or algorithm not usable")
  else if negb (json_object claims) then Err TypeError
  else Ok (Jws alg claims key).

Section Decode.
(** Python's [int(s)] on a [str]; [None] stands for [ValueError]. *)
Variable int_of_str : string -> option Z.

Inductive int_result := IntOk (z : Z) | IntValueError | IntTypeError.

Definition py_int (v : pyval) : int_result :=
  match v with
  | VInt z => IntOk z
  | VBool b => IntOk (if b then 1 else 0)
  | VStr s => match int_of_str s with
              | Some z => IntOk z
              | None => IntValueError
              end
  | VNone | VDatetime _ => IntTypeError
  end.

Definition check (ok : bool) (e : exn) : result unit :=
  if ok then Ok tt else Err e.

Definition rbind {A B} (m : result A) (k : A -> result B) : result B :=
  match m with Ok a => k a | Err e => Err e end.

(** A time claim, when present, is converted with [int]; [test] is the
    comparison against the current time. *)
Definition validate_time (claims : pydict) (k : string)
    (test : Z -> result unit) : result unit :=
  match claims !! k with
  | None => Ok tt
  | Some v =>
      match py_int v with
      | IntOk z => test z
      | IntValueError => Err (JWTClaimsError (k +:+ " must be an integer."))
      | IntTypeError => Err TypeError
      end
  end.

Definition validate_str (claims : pydict) (k : string) : result unit :=
  match claims !! k with
  | None | Some (VStr _) => Ok tt
  | Some _ => Err (JWTClaimsError (k +:+ " must be a string."))
  end.

Definition validate_absent (claims : pydict) (k msg : string) : result unit :=
  match claims !! k with
  | None => Ok tt
  | Some _ => Err (JWTClaimsError msg)
  end.

(** [_validate_claims]; [now] is [timegm(datetime.utcnow().utctimetuple())]. *)
Definition validate_claims (claims : pydict) (now : Z) : result unit :=
  rbind (validate_time claims "iat" (fun _ => Ok tt)) (fun _ =>
  rbind (validate_time claims "nbf" (fun nbf =>
           check (negb (now <? nbf))
                 (JWTClaimsError "The token is not yet valid (nbf)"))) (fun _ =>
  rbind (validate_time claims "exp" (fun exp =>
           check (negb (exp <? now)) ExpiredSignatureError)) (fun _ =>
  rbind (validate_absent claims "aud" "Invalid audience") (fun _ =>
  rbind (validate_str claims "sub") (fun _ =>
  rbind (validate_str claims "jti") (fun _ =>
  validate_absent claims "at_hash" "No access_token provided")))))).

(** [jwt.decode(token, key, algorithms=...)] at clock reading
    [utcnow]. *)
Definition decode (tok : token) (key : string) (algorithms : list string)
    (utcnow : datetime) : result pydict :=
  match tok with
  | Opaque _ => Err (JWTError "Not enough segments")
  | Jws alg payload signed_with =>
      if negb (bool_decide (alg ∈ algorithms)) then
        Err (JWTError "The specified alg value is not allowed")
      else if negb (can_sign alg key && bool_decide (signed_with = key)) then
        Err (JWTError "Signature verification failed.")
      else if negb (json_object payload) then
        Err (JWTError "Invalid payload string")
      else
        rbind (validate_claims payload (timegm utcnow)) (fun _ => Ok payload)
  end.
End Decode.

End Jose.

(** ** Exceptions and the two effect layers *)

(** The exception classes the handlers distinguish in their [except]
    clauses. [PyExc] is any other exception, named by its class. *)
Inductive exception :=
| HTTPExc (e : HTTPException)
| JoseExc (e : Jose.exn)
| SQLAlchemyError (cls : string)
| PyExc (cls : string).

(** The result of running a piece of Python: a value or a raised
    exception. *)
Inductive outcome (A : Type) :=
| Return (a : A)
| Raise (e : exception).
Arguments Return {A} a.
Arguments Raise {A} e.

Definition obind {A B} (m : outcome A) (k : A -> outcome B) : outcome B :=
  match m with
  | Return a => k a
  | Raise e => Raise e
  end.

(** [try: body / except ...: handler]; a handler that does not match
    re-raises. *)
Definition otry {A} (body : outcome A) (handler : exception -> outcome A)
    : outcome A :=
  match body with
  | Return a => Return a
  | Raise e => handler e
  end.

(** Code that mutates a state [S] (the object store, the database session,
    the disk): the state reached so far survives a raised exception. *)
Definition py (S A : Type) : Type := S -> S * outcome A.

Definition ret {S A} (a : A) : py S A := fun s => (s, Return a).
Definition raise {S A} (e : exception) : py S A := fun s => (s, Raise e).
Definition lift {S A} (o : outcome A) : py S A := fun s => (s, o).

Definition bind {S A B} (m : py S A) (k : A -> py S B) : py S B :=
  fun s => match m s with
           | (s', Return a) => k a s'
           | (s', Raise e) => (s', Raise e)
           end.

Definition try_except {S A} (body : py S A) (handler : exception -> py S A)
    : py S A :=
  fun s => match body s with
           | (s', Return a) => (s', Return a)
           | (s', Raise e) => handler e s'
           end.

(** [try: body / finally: final]: [final] runs whatever [body] did; an
    exception of [final] replaces the outcome of [body]. *)
Definition try_finally {S A} (body : py S A) (final : py S unit) : py S A :=
  fun s => match body s with
           | (s', r) =>
               match final s' with
               | (s'', Return _) => (s'', r)
               | (s'', Raise e) => (s'', Raise e)
               end
           end.

Declare Scope py_scope.
Delimit Scope py_scope with py.
Notation "'let*' x ':=' m 'in' k" := (obind m (fun x => k))
  (at level 10, x name, m at level 100, k at level 200) : py_scope.
Notation "x <- m ;; k" := (bind m (fun x => k))
  (at level 100, m at next level, right associativity) : py_scope.
Open Scope py_scope.

(** What the client receives: the [HTTPException] as raised, or the
    framework's plain 500 for any other exception that escapes. *)
Definition client_error (e : exception) : Z * string :=
  match e with
  | HTTPExc h => (status_code h, detail h)
  | _ => (500, "Internal Server Error")
  end.

(** ** Time *)

(** [bool(td)] for a [timedelta]: false exactly for the zero duration. *)
Definition timedelta_truthy (td : timedelta) : bool := negb (td =? 0).

(** Truthiness of an [Optional[timedelta]]: [None] is falsy. *)
Definition optional_truthy (o : option timedelta) : bool :=
  match o with
  | Some td => timedelta_truthy td
  | None => false
  end.

Definition timedelta_minutes (m : Z) : timedelta := m * 60 * 1000000.

(** [datetime.min] and [datetime.max] (0001-01-01 and 9999-12-31
    23:59:59.999999) in microseconds from the epoch. *)
Definition DATETIME_MIN : datetime := -62135596800000000.
Definition DATETIME_MAX : datetime := 253402300799999999.

(** [dt + td]: raises [OverflowError] outside the representable years. *)
Definition datetime_add (dt : datetime) (td : timedelta) : outcome datetime :=
  let r := dt + td in
  if (DATETIME_MIN <=? r) && (r <=? DATETIME_MAX) then Return r
  else Raise (PyExc "OverflowError").

(** ** The object store

    Dictionaries are mutable and passed by reference; [loc] names one. *)
Definition loc := positive.
Abbreviation heap := (gmap loc pydict).

(** A dictionary display [{...}] allocates a new object. *)
Definition dict_literal (d : pydict) : py heap loc :=
  fun h => let l := fresh (dom h) in (<[l := d]> h, Return l).

(** [d.copy()]: a new object with the same entries. *)
Definition dict_copy (l : loc) : py heap loc :=
  fun h => match h !! l with
           | Some d => dict_literal d h
           | None => (h, Raise (PyExc "ReferenceError"))
           end.

(** [d.update(other)]: in place, [other] wins on common keys. *)
Definition dict_update (l : loc) (other : pydict) : py heap unit :=
  fun h => match h !! l with
           | Some d => (<[l := other ∪ d]> h, Return tt)
           | None => (h, Raise (PyExc "ReferenceError"))
           end.

(** [jwt.encode(claims, key, algorithm=alg)]: converts the time claims of
    the dictionary it is handed in place, then signs. *)
Definition jwt_encode (claims : loc) (key alg : string) : py heap Jose.token :=
  fun h => match h !! claims with
           | Some d =>
               let d' := Jose.convert_time_claims d in
               (<[claims := d']> h,
                match Jose.sign d' key alg with
                | Jose.Ok tok => Return tok
                | Jose.Err e => Raise (JoseExc e)
                end)
           | None => (h, Raise (PyExc "ReferenceError"))
           end.

(** Runs code that only works on objects of its own. *)
Definition call {A} (m : py heap A) : outcome A := (m ∅).2.

(** [d.get(k)]: [None] when the key is absent. *)
Definition dict_get (d : pydict) (k : string) : pyval := default VNone (d !! k).

Definition is_None (v : pyval) : bool :=
  match v with VNone => true | _ => false end.

(** [isinstance(e, JWTError)]. *)
Definition isinstance_JWTError (e : exception) : bool :=
  match e with
  | JoseExc j => Jose.is_JWTError j
  | _ => false
  end.

Definition isinstance_SQLAlchemyError (e : exception) : bool :=
  match e with
  | SQLAlchemyError _ => true
  | _ => false
  end.

Definition isinstance_HTTPException (e : exception) : bool :=
  match e with
  | HTTPExc _ => true
  | _ => false
  end.

(** ** Configuration ([AuthSettings]) *)

Record AuthSettings := mkAuthSettings {
  SECRET_KEY : string;
  ALGORITHM : string;
  ACCESS_TOKEN_EXPIRE_MINUTES : Z
}.

(** The values used when the environment sets none. *)
Definition default_settings : AuthSettings :=
  {| SECRET_KEY := "please-change-this-to-a-long-random-string-in-next-sprint";
     ALGORITHM := "HS256";
     ACCESS_TOKEN_EXPIRE_MINUTES := 10080 |}.

(** [passlib]'s [CryptContext]: [hash] draws a salt, passed here as the
    second argument; both operations may raise. *)
Record CryptContext := mkCryptContext {
  ctx_hash : string -> string -> outcome string;
  ctx_verify : string -> string -> outcome bool
}.

(** ** [auth_utils.py] *)
Module auth_utils.
Section WithSettings.
Variable auth_settings : AuthSettings.
Variable pwd_context : CryptContext.
Variable int_of_str : string -> option Z.

Definition verify_password (plain_password hashed_password : string)
    : outcome bool :=
  ctx_verify pwd_context plain_password hashed_password.

Definition get_password_hash (password salt : string) : outcome string :=
  ctx_hash pwd_context password salt.

(** [data] is the caller's dictionary, passed by reference; [utcnow] is
    the reading of [datetime.utcnow()]. *)
Definition create_access_token (data : loc) (expires_delta : option timedelta)
    (utcnow : datetime) : py heap Jose.token :=
  to_encode <- dict_copy data ;;
  expire <- lift
    (if optional_truthy expires_delta
     then datetime_add utcnow (default 0 expires_delta)
     else datetime_add utcnow
            (timedelta_minutes (ACCESS_TOKEN_EXPIRE_MINUTES auth_settings))) ;;
  _ <- dict_update to_encode {["exp" := VDatetime expire]} ;;
  try_except
    (jwt_encode to_encode (SECRET_KEY auth_settings) (ALGORITHM auth_settings))
    (fun _ =>
       raise (HTTPExc
         {| status_code := HTTP_500_INTERNAL_SERVER_ERROR;
            detail := "Server security mechanism failed. Cannot issue token.";
            headers := [] |})).

Definition credentials_exception : HTTPException :=
  {| status_code := HTTP_401_UNAUTHORIZED;
     detail := "Authentication failed. Token is invalid or expired.";
     headers := [("WWW-Authenticate", "Bearer")] |}.

(** Token validation only: returns [{"email": sub}]. *)
Definition get_current_user (token : Jose.token) (utcnow : datetime)
    : outcome pydict :=
  let* email :=
    otry
      (let* payload :=
         match Jose.decode int_of_str token (SECRET_KEY auth_settings)
                 [ALGORITHM auth_settings] utcnow with
         | Jose.Ok claims => Return claims
         | Jose.Err e => Raise (JoseExc e)
         end in
       let email := dict_get payload "sub" in
       if is_None email then Raise (HTTPExc credentials_exception)
       else Return email)
      (fun e =>
         if isinstance_JWTError e then Raise (HTTPExc credentials_exception)
         else Raise (HTTPExc credentials_exception)) in
  Return {["email" := email]}.

End WithSettings.
End auth_utils.

(** ** [models.py], [schemas.py] and the database session *)
Module models.
Record User := mkUser {
  id : Z;
  email : string;
  password_hash : string
}.

#[global] Instance User_eq_dec : EqDecision User.
Proof. solve_decision. Defined.
End models.

Module schemas.
Record UserCreate := mkUserCreate {
  email : string;
  password : string
}.

Record Token := mkToken {
  access_token : Jose.token;
  token_type : string
}.

(** [Token(access_token=t)]: [token_type] keeps its default. *)
Definition Token_ (t : Jose.token) : Token :=
  {| access_token := t; token_type := "bearer" |}.
End schemas.

(** The [users] table as committed, and the objects [add]ed to the session
    but not flushed yet (email and password hash; the id is assigned by
    the server on insert). *)
Record DbState := mkDb {
  users : list models.User;
  pending : list (string * string)
}.

(** What the database does to one request: each of the three kinds of
    round trip may fail with a [SQLAlchemyError] (server unreachable,
    connection lost). *)
Record DbFaults := mkFaults {
  execute_fails : bool;
  commit_fails : bool;
  refresh_fails : bool
}.

Definition no_faults : DbFaults :=
  {| execute_fails := false; commit_fails := false; refresh_fails := false |}.

(** [select(User).where(User.email == e)] evaluated on the table. *)
Definition select_user_by_email (e : string) (rows : list models.User)
    : list models.User :=
  filter (fun u => models.email u = e) rows.

Definition db_execute (faults : DbFaults)
    (stmt : list models.User -> list models.User)
    : py DbState (list models.User) :=
  fun db =>
    if execute_fails faults then (db, Raise (SQLAlchemyError "OperationalError"))
    else (db, Return (stmt (users db))).

Definition scalar_one_or_none (rows : list models.User)
    : outcome (option models.User) :=
  match rows with
  | [] => Return None
  | [u] => Return (Some u)
  | _ => Raise (SQLAlchemyError "MultipleResultsFound")
  end.

Definition db_add (new : string * string) : py DbState unit :=
  fun db => (mkDb (users db) (pending db ++ [new]), Return tt).

(** The serial primary key: larger than every id in the table. *)
Definition fresh_id (rows : list models.User) : Z :=
  1 + foldr Z.max 0 (models.id <$> rows).

(** The INSERTs of a flush; [None] when the unique index on [email]
    rejects one of them. *)
Fixpoint flush (rows : list models.User) (new : list (string * string))
    : option (list models.User) :=
  match new with
  | [] => Some rows
  | (e, h) :: rest =>
      if bool_decide (e ∈ models.email <$> rows) then None
      else flush (rows ++ [models.mkUser (fresh_id rows) e h]) rest
  end.

(** [commit] is all or nothing: when it raises, the table is as before. *)
Definition db_commit (faults : DbFaults) : py DbState unit :=
  fun db =>
    if commit_fails faults then (db, Raise (SQLAlchemyError "OperationalError"))
    else match flush (users db) (pending db) with
         | Some rows => (mkDb rows [], Return tt)
         | None => (db, Raise (SQLAlchemyError "IntegrityError"))
         end.

(** [refresh(obj)] reloads the row of a persistent object. *)
Definition db_refresh (faults : DbFaults) (obj : string * string)
    : py DbState models.User :=
  fun db =>
    if refresh_fails faults then (db, Raise (SQLAlchemyError "OperationalError"))
    else match select_user_by_email obj.1 (users db) with
         | u :: _ => (db, Return u)
         | [] => (db, Raise (SQLAlchemyError "InvalidRequestError"))
         end.

Definition db_rollback : py DbState unit :=
  fun db => (mkDb (users db) [], Return tt).

(** A bind parameter for the [email] column must be a [str]; the driver
    refuses anything else. *)
Definition bind_str (v : pyval) : outcome string :=
  match v with
  | VStr s => Return s
  | _ => Raise (SQLAlchemyError "DBAPIError")
  end.

(** ** [routers/auth.py] *)
Module auth.
Section WithSettings.
Variable auth_settings : AuthSettings.
Variable pwd_context : CryptContext.
Variable int_of_str : string -> option Z.

Definition credentials_exception : HTTPException :=
  {| status_code := HTTP_401_UNAUTHORIZED;
     detail := "Could not validate credentials";
     headers := [("WWW-Authenticate", "Bearer")] |}.

(** The dependency of the protected routes: validates the token through
    [auth_utils.get_current_user], then loads the user. *)
Definition get_current_user (token : Jose.token) (utcnow : datetime)
    (faults : DbFaults) : py DbState pydict :=
  validated_email <- lift
    (otry
       (let* token_data_dict :=
          auth_utils.get_current_user auth_settings int_of_str token utcnow in
        let validated_email := dict_get token_data_dict "email" in
        if is_None validated_email then Raise (HTTPExc credentials_exception)
        else Return validated_email)
       (fun e =>
          if isinstance_HTTPException e then Raise e
          else Raise (HTTPExc credentials_exception))) ;;
  user <- try_except
    (param <- lift (bind_str validated_email) ;;
     result <- db_execute faults (select_user_by_email param) ;;
     lift (scalar_one_or_none result))
    (fun e =>
       if isinstance_SQLAlchemyError e then
         raise (HTTPExc
           {| status_code := HTTP_500_INTERNAL_SERVER_ERROR;
              detail := "Database error during user lookup for authenticated request.";
              headers := [] |})
       else raise e) ;;
  match user with
  | None => raise (HTTPExc credentials_exception)
  | Some user =>
      ret (<["id" := VInt (models.id user)]>
             {["email" := VStr (models.email user)]})
  end.

(** [salt] is the randomness drawn by the hasher, [utcnow] the clock
    reading when the token is issued. *)
Definition register_user (user_data : schemas.UserCreate) (salt : string)
    (utcnow : datetime) (faults : DbFaults) : py DbState schemas.Token :=
  existing_user <- try_except
    (result <- db_execute faults
                 (select_user_by_email (schemas.email user_data)) ;;
     lift (scalar_one_or_none result))
    (fun e =>
       if isinstance_SQLAlchemyError e then
         raise (HTTPExc
           {| status_code := HTTP_500_INTERNAL_SERVER_ERROR;
              detail := "Database error during user existence check. See backend logs.";
              headers := [] |})
       else raise e) ;;
  match existing_user with
  | Some _ =>
      raise (HTTPExc {| status_code := HTTP_400_BAD_REQUEST;
                        detail := "Email already registered";
                        headers := [] |})
  | None =>
      hashed_password <- lift
        (auth_utils.get_password_hash pwd_context
           (schemas.password user_data) salt) ;;
      let new_user := (schemas.email user_data, hashed_password) in
      new_user <- try_except
        (_ <- db_add new_user ;;
         _ <- db_commit faults ;;
         db_refresh faults new_user)
        (fun e =>
           if isinstance_SQLAlchemyError e then
             _ <- db_rollback ;;
             raise (HTTPExc
               {| status_code := HTTP_500_INTERNAL_SERVER_ERROR;
                  detail := "Registration failed due to a critical database error.";
                  headers := [] |})
           else raise e) ;;
      access_token <- lift
        (call (data <- dict_literal {["sub" := VStr (models.email new_user)]} ;;
               auth_utils.create_access_token auth_settings data None utcnow)) ;;
      ret (schemas.Token_ access_token)
  end.

Definition login_for_access_token (user_data : schemas.UserCreate)
    (utcnow : datetime) (faults : DbFaults) : py DbState schemas.Token :=
  user <- try_except
    (result <- db_execute faults
                 (select_user_by_email (schemas.email user_data)) ;;
     lift (scalar_one_or_none result))
    (fun e =>
       if isinstance_SQLAlchemyError e then
         raise (HTTPExc
           {| status_code := HTTP_500_INTERNAL_SERVER_ERROR;
              detail := "Database error during user lookup. See backend logs.";
              headers := [] |})
       else raise e) ;;
  match user with
  | None =>
      raise (HTTPExc {| status_code := HTTP_401_UNAUTHORIZED;
                        detail := "Incorrect email or password";
                        headers := [("WWW-Authenticate", "Bearer")] |})
  | Some user =>
      verified <- lift
        (auth_utils.verify_password pwd_context
           (schemas.password user_data) (models.password_hash user)) ;;
      if negb verified then
        raise (HTTPExc {| status_code := HTTP_401_UNAUTHORIZED;
                          detail := "Incorrect email or password";
                          headers := [("WWW-Authenticate", "Bearer")] |})
      else
        access_token <- lift
          (call (data <- dict_literal {["sub" := VStr (models.email user)]} ;;
                 auth_utils.create_access_token auth_settings data None utcnow)) ;;
        ret (schemas.Token_ access_token)
  end.

(** [GET /me]. *)
Definition read_users_me (current_user : pydict) : outcome pyval :=
  match current_user !! "email" with
  | Some v => Return v
  | None => Raise (PyExc "KeyError")
  end.

End WithSettings.
End auth.

(** ** Paths and the disk

    [pathlib.PurePosixPath] keeps a path as its parts; parsing a string
    splits at "/" and drops empty and "." components.  The disk is the
    directory tree below the working directory. *)
Module pathlib.

Record Path := mkPath {
  absolute : bool;
  parts : list string
}.

Fixpoint split_slash (s : string) : list string :=
  match s with
  | EmptyString => [EmptyString]
  | String c rest =>
      if Ascii.eqb c "/" then EmptyString :: split_slash rest
      else match split_slash rest with
           | h :: t => String c h :: t
           | [] => [String c EmptyString]
           end
  end.

Definition components (s : string) : list string :=
  filter (fun c => c ≠ "" ∧ c ≠ ".") (split_slash s).

(** [Path(s)]. *)
Definition Path_ (s : string) : Path :=
  {| absolute := String.prefix "/" s; parts := components s |}.

(** [p / s]: an absolute right operand replaces the left one. *)
Definition joinpath (p : Path) (s : string) : Path :=
  if String.prefix "/" s then Path_ s
  else {| absolute := absolute p; parts := parts p ++ components s |}.

Fixpoint join_slash (l : list string) : string :=
  match l with
  | [] => ""
  | [x] => x
  | x :: rest => x +:+ "/" +:+ join_slash rest
  end.

(** [str(p)]. *)
Definition str (p : Path) : string :=
  match absolute p, parts p with
  | false, [] => "."
  | false, l => join_slash l
  | true, l => "/" +:+ join_slash l
  end.

(** What the operating system makes of the parts: ".." steps up. *)
Definition resolve (p : Path) : list string :=
  foldl (fun (acc : list string) c =>
           if bool_decide (c = "..") then removelast acc
           else (acc ++ [c])%list) [] (parts p).

End pathlib.

Record Disk := mkDisk {
  dirs : gset (list string);
  files : gmap (list string) string
}.

(** [p.mkdir(exist_ok=True)]. *)
Definition mkdir_exist_ok (p : pathlib.Path) : py Disk unit :=
  fun d =>
    let target := pathlib.resolve p in
    if bool_decide (target ∈ dirs d) then (d, Return tt)
    else if bool_decide (is_Some (files d !! target)) then
      (d, Raise (PyExc "FileExistsError"))
    else if negb (bool_decide (removelast target ∈ dirs d)) then
      (d, Raise (PyExc "FileNotFoundError"))
    else (mkDisk ({[target]} ∪ dirs d) (files d), Return tt).

(** What the device does to one upload: nothing, or a failure while the
    upload is read, while the file is opened, or while it is written,
    after [written] bytes have reached the file. *)
Inductive io_fault :=
| io_ok
| read_fails
| open_fails
| write_fails (written : nat).

(** [with open(p, "wb") as f: f.write(contents)]. [open] creates the file,
    or truncates the one that is there, before anything is written; a
    failure of the write, or of the close on leaving the [with] block,
    leaves the file with the bytes written so far. *)
Definition write_bytes (io : io_fault) (p : pathlib.Path) (contents : string)
    : py Disk unit :=
  fun d =>
    let target := pathlib.resolve p in
    match io with
    | open_fails => (d, Raise (PyExc "OSError"))
    | _ =>
        if bool_decide (target ∈ dirs d) then
          (d, Raise (PyExc "IsADirectoryError"))
        else if negb (bool_decide (removelast target ∈ dirs d)) then
          (d, Raise (PyExc "FileNotFoundError"))
        else match io with
             | write_fails written =>
                 (mkDisk (dirs d)
                    (<[target := String.substring 0 written contents]> (files d)),
                  Raise (PyExc "OSError"))
             | _ =>
                 (mkDisk (dirs d) (<[target := contents]> (files d)), Return tt)
             end
    end.

(** ** [routers/files.py] *)
Module files.

Definition UPLOAD_DIR : string := "user_uploads".

(** [starlette.UploadFile]: [filename] and [content_type] are optional. *)
Record UploadFile := mkUploadFile {
  filename : option string;
  content_type : option string;
  contents : string
}.

(** What a handler parameter can be bound to: a dictionary, or a mapped
    [models.User] instance. *)
Inductive pyobj :=
| Dict (d : pydict)
| Orm (u : models.User).

(** [obj.id] and [obj.email]: attributes of a [User]; a [dict] has no
    such attributes (its entries are reached by subscription). *)
Definition attr_id (obj : pyobj) : outcome Z :=
  match obj with
  | Orm u => Return (models.id u)
  | Dict _ => Raise (PyExc "AttributeError")
  end.

Definition attr_email (obj : pyobj) : outcome string :=
  match obj with
  | Orm u => Return (models.email u)
  | Dict _ => Raise (PyExc "AttributeError")
  end.

(** [s.replace(old, new)] for one-character [old] and [new]. *)
Fixpoint replace (old new : ascii) (s : string) : string :=
  match s with
  | EmptyString => EmptyString
  | String c rest =>
      String (if Ascii.eqb c old then new else c) (replace old new rest)
  end.

Definition ALLOWED_TYPES : list string :=
  ["application/pdf"; "text/plain";
   "application/vnd.openxmlformats-officedocument.wordprocessingml.document"].

(** [file.content_type in [...]]. *)
Definition allowed (ct : option string) : bool :=
  match ct with
  | Some t => bool_decide (t ∈ ALLOWED_TYPES)
  | None => false
  end.

(** [str(x)] of an optional string in an f-string. *)
Definition str_optional (o : option string) : string := default "None" o.

(** [await file.read()]: the bytes of the upload. *)
Definition file_read (io : io_fault) (file : UploadFile) : py Disk string :=
  match io with
  | read_fails => raise (PyExc "OSError")
  | _ => ret (contents file)
  end.

(** [await file.close()]: closes the spooled upload; the disk is not
    involved. *)
Definition file_close : py Disk unit := ret tt.

Definition upload_file (file : UploadFile) (current_user : pyobj)
    (io : io_fault) : py Disk pydict :=
  _ <- (if negb (allowed (content_type file)) then
          _ <- lift (attr_email current_user) ;;
          raise (HTTPExc
            {| status_code := HTTP_400_BAD_REQUEST;
               detail := "Unsupported file type: " +:+
                         str_optional (content_type file) +:+
                         ". Only PDF, TXT, or DOCX are allowed.";
               headers := [] |})
        else ret tt) ;;
  uid <- lift (attr_id current_user) ;;
  let user_dir := pathlib.joinpath (pathlib.Path_ UPLOAD_DIR) (pretty uid) in
  _ <- mkdir_exist_ok user_dir ;;
  name <- lift (match filename file with
                | Some name => Return name
                | None => Raise (PyExc "AttributeError")
                end) ;;
  let safe_filename := replace "\" "_" (replace "/" "_" name) in
  let file_path := pathlib.joinpath user_dir safe_filename in
  _ <- lift (attr_email current_user) ;;
  _ <- lift (attr_id current_user) ;;
  try_finally
    (try_except
       (contents <- file_read io file ;;
        _ <- write_bytes io file_path contents ;;
        uid <- lift (attr_id current_user) ;;
        ret (<["message" := VStr "File uploaded successfully"]>
             (<["filename" := VStr safe_filename]>
             (<["path" := VStr (pathlib.str file_path)]>
             {["user_id" := VInt uid]}))))
       (fun _ =>
          raise (HTTPExc
            {| status_code := HTTP_500_INTERNAL_SERVER_ERROR;
               detail := "Could not save file on the server.";
               headers := [] |})))
    file_close.

End files.

(** ** The upload route with its dependency

    [current_user = Depends(get_current_user)]: the handler is called with
    what [routers.auth.get_current_user] returned. *)
Definition zoom_l {S T A} (m : py S A) : py (S * T) A :=
  fun st => let r := m st.1 in ((r.1, st.2), r.2).

Definition zoom_r {S T A} (m : py T A) : py (S * T) A :=
  fun st => let r := m st.2 in ((st.1, r.1), r.2).

Definition upload_route (auth_settings : AuthSettings)
    (int_of_str : string -> option Z) (token : Jose.token) (utcnow : datetime)
    (faults : DbFaults) (file : files.UploadFile) (io : io_fault)
    : py (DbState * Disk) pydict :=
  current_user <- zoom_l (auth.get_current_user auth_settings int_of_str
                            token utcnow faults) ;;
  zoom_r (files.upload_file file (files.Dict current_user) io).

(** ** Vocabulary of the properties *)

(** [database.get_db]: every request works in a session of its own, opened
    on the table as it is. *)
Definition get_db (rows : list models.User) : DbState :=
  {| users := rows; pending := [] |}.

(** The unique index on [users.email]. *)
Definition unique_emails (rows : list models.User) : Prop :=
  NoDup (models.email <$> rows).

(** The defects of a token that the specification lists: not a signed
    token at all, signed with another key, expired, or without [sub]. *)
Inductive token_defect (s : AuthSettings) (utcnow : datetime)
    : Jose.token -> Prop :=
| defect_malformed str :
    token_defect s utcnow (Jose.Opaque str)
| defect_signature alg payload key :
    key <> SECRET_KEY s ->
    token_defect s utcnow (Jose.Jws alg payload key)
| defect_expired alg payload key exp :
    payload !! "exp" = Some (VInt exp) -> exp < timegm utcnow ->
    token_defect s utcnow (Jose.Jws alg payload key)
| defect_no_sub alg payload key :
    payload !! "sub" = None ->
    token_defect s utcnow (Jose.Jws alg payload key).

(** The 500 of the dependency when the user lookup itself raises. *)
Definition lookup_failed : HTTPException :=
  {| status_code := HTTP_500_INTERNAL_SERVER_ERROR;
     detail := "Database error during user lookup for authenticated request.";
     headers := [] |}.

(** Decimal numerals with an optional minus sign, the plain spelling that
    [int] accepts; used where an example needs an instance. *)
Fixpoint digits (s : string) (acc : Z) : option Z :=
  match s with
  | EmptyString => Some acc
  | String c rest =>
      let n := Z.of_nat (nat_of_ascii c) - 48 in
      if (0 <=? n) && (n <=? 9) then digits rest (10 * acc + n) else None
  end.

Definition decimal (s : string) : option Z :=
  match s with
  | EmptyString => None
  | String "-" (String c rest) => Z.opp <$> digits (String c rest) 0
  | String "-" EmptyString => None
  | _ => digits s 0
  end.

(** A stand-in hasher for the examples: the "hash" is the password followed
    by the salt. It says nothing about Argon2. *)
Definition plain_context : CryptContext :=
  {| ctx_hash := fun password salt => Return (password +:+ "$" +:+ salt);
     ctx_verify := fun password hashed =>
                     Return (String.prefix (password +:+ "$") hashed) |}.

(** A token for a subject, as the handlers issue it. *)
Definition issue (s : AuthSettings) (sub : string)
    (expires_delta : option timedelta) (utcnow : datetime) : outcome Jose.token :=
  call (data <- dict_literal {["sub" := VStr sub]} ;;
        auth_utils.create_access_token s data expires_delta utcnow).

(** Noon of 2024-01-01 (UTC), in microseconds. *)
Definition noon : datetime := 1704110400000000.


(** The token that [issue] gives at [noon] for a subject that never
    registered. *)
Definition orphan_token : Jose.token :=
  Jose.Jws "HS256"
    (<["exp" := VInt 1704715200]> {["sub" := VStr "ghost@x.com"]})
    (SECRET_KEY default_settings).

(** A correctly signed, unexpired token that names no subject. *)
Definition anonymous_token : Jose.token :=
  Jose.Jws "HS256" {["exp" := VInt 1704715200]} (SECRET_KEY default_settings).

(** The 401 of both failure branches of the login handler. *)
Definition incorrect_credentials : HTTPException :=
  {| status_code := HTTP_401_UNAUTHORIZED;
     detail := "Incorrect email or password";
     headers := [("WWW-Authenticate", "Bearer")] |}.

Definition alice : models.User :=
  {| models.id := 1; models.email := "a@b.com";
     models.password_hash := "pw$salt1" |}.


(** The validity that [create_access_token] gives a token: the caller's
    when it is truthy, the configured default otherwise. *)
Definition effective_ttl (s : AuthSettings) (expires_delta : option timedelta)
    : timedelta :=
  if optional_truthy expires_delta then default 0 expires_delta
  else timedelta_minutes (ACCESS_TOKEN_EXPIRE_MINUTES s).

(** The 500 of a failed signature. *)
Definition issuance_failed : HTTPException :=
  {| status_code := HTTP_500_INTERNAL_SERVER_ERROR;
     detail := "Server security mechanism failed. Cannot issue token.";
     headers := [] |}.

(** The expiry second that a token carries. *)
Definition token_expiry (tok : Jose.token) : option Z :=
  match tok with
  | Jose.Jws _ payload _ =>
      match payload !! "exp" with
      | Some (VInt exp) => Some exp
      | _ => None
      end
  | Jose.Opaque _ => None
  end.

(** [{'email': user.email, 'id': user.id}]. *)
Definition identity (u : models.User) : pydict :=
  <["id" := VInt (models.id u)]> {["email" := VStr (models.email u)]}.


(** A caller's claims, and a store that holds them at location 5. *)
Definition sample_claims : pydict :=
  <["role" := VStr "admin"]> {["sub" := VStr "a@b.com"]}.

Definition sample_heap : heap := {[ 5%positive := sample_claims ]}.


(** The token that [issue] gives at [noon] for [alice]. *)
Definition alice_token : Jose.token :=
  Jose.Jws "HS256"
    (<["exp" := VInt 1704715200]> {["sub" := VStr "a@b.com"]})
    (SECRET_KEY default_settings).


(** The errors of the registration handler. *)
Definition existence_check_failed : HTTPException :=
  {| status_code := HTTP_500_INTERNAL_SERVER_ERROR;
     detail := "Database error during user existence check. See backend logs.";
     headers := [] |}.

Definition already_registered : HTTPException :=
  {| status_code := HTTP_400_BAD_REQUEST;
     detail := "Email already registered";
     headers := [] |}.

Definition registration_failed : HTTPException :=
  {| status_code := HTTP_500_INTERNAL_SERVER_ERROR;
     detail := "Registration failed due to a critical database error.";
     headers := [] |}.

(** The row that a successful registration appends. *)
Definition new_row (rows : list models.User) (email hashed : string)
    : models.User :=
  {| models.id := fresh_id rows; models.email := email;
     models.password_hash := hashed |}.


(** The file name under which [upload_file] stores an upload. *)
Definition safe_filename (name : string) : string :=
  files.replace "\" "_" (files.replace "/" "_" name).

(** Whether a character occurs in a string. *)
Fixpoint occurs (c : ascii) (s : string) : bool :=
  match s with
  | EmptyString => false
  | String c' rest => Ascii.eqb c' c || occurs c rest
  end.

(** A disk with the upload directory, as the module creates it on import. *)
Definition empty_disk : Disk :=
  {| dirs := {[ []; [files.UPLOAD_DIR] ]}; files := ∅ |}.

Definition traversal_upload : files.UploadFile :=
  {| files.filename := Some "../../etc/passwd";
     files.content_type := Some "text/plain";
     files.contents := "x" |}.


(** ** [database.py]: the URL written to the log

    [settings.DATABASE_URL.split('@')[-1]]. *)
Module database.

(** [s.split(sep)] for a one-character separator. *)
Fixpoint split (sep : ascii) (s : string) : list string :=
  match s with
  | EmptyString => [EmptyString]
  | String c rest =>
      if Ascii.eqb c sep then EmptyString :: split sep rest
      else match split sep rest with
           | h :: t => String c h :: t
           | [] => [String c EmptyString]
           end
  end.

Definition DATABASE_URL : string :=
  "postgresql+asyncpg://user:password@db:5432/docu_sage_db".

(** What the module logs for a URL: the part after the last "@". *)
Definition logged_url (url : string) : string :=
  List.last (split "@" url) EmptyString.

End database.

(** The errors of the upload handler. *)
Definition unsupported_type (ct : option string) : HTTPException :=
  {| status_code := HTTP_400_BAD_REQUEST;
     detail := "Unsupported file type: " +:+ files.str_optional ct +:+
               ". Only PDF, TXT, or DOCX are allowed.";
     headers := [] |}.

Definition could_not_save : HTTPException :=
  {| status_code := HTTP_500_INTERNAL_SERVER_ERROR;
     detail := "Could not save file on the server.";
     headers := [] |}.

(** The 500 of the login handler when the lookup raises. *)
Definition login_lookup_failed : HTTPException :=
  {| status_code := HTTP_500_INTERNAL_SERVER_ERROR;
     detail := "Database error during user lookup. See backend logs.";
     headers := [] |}.

(** The directory of a user below the upload directory, and the place of
    a stored upload in it. *)
Definition user_dir (uid : Z) : list string := [files.UPLOAD_DIR; pretty uid].

Definition stored_at (uid : Z) (name : string) : list string :=
  [files.UPLOAD_DIR; pretty uid; safe_filename name].

(** The dictionary that a successful upload returns. *)
Definition upload_result (uid : Z) (name : string) : pydict :=
  <["message" := VStr "File uploaded successfully"]>
  (<["filename" := VStr (safe_filename name)]>
  (<["path" := VStr (files.UPLOAD_DIR +:+ "/" +:+ pretty uid +:+ "/" +:+
                     safe_filename name)]>
  {["user_id" := VInt uid]})).

(** A settings object whose algorithm the signer does not know. *)
Definition misconfigured : AuthSettings :=
  {| SECRET_KEY := SECRET_KEY default_settings;
     ALGORITHM := "HS999";
     ACCESS_TOKEN_EXPIRE_MINUTES := 10080 |}.

(** Faults of a request in which every round trip to the database
    fails. *)
Definition database_down : DbFaults :=
  {| execute_fails := true; commit_fails := true; refresh_fails := true |}.

(** A hasher whose [verify] raises on every stored hash, as passlib does on
    a hash it cannot identify. *)
Definition raising_context : CryptContext :=
  {| ctx_hash := fun password salt => Return (password +:+ "$" +:+ salt);
     ctx_verify := fun _ _ => Raise (PyExc "UnknownHashError") |}.

Definition report_upload : files.UploadFile :=
  {| files.filename := Some "report.txt";
     files.content_type := Some "text/plain";
     files.contents := "hello" |}.


(** A correctly signed token that names a subject and carries no expiry. *)
Definition eternal_token : Jose.token :=
  Jose.Jws "HS256" {["sub" := VStr "a@b.com"]} (SECRET_KEY default_settings).


(** An upload with a name, without a declared content type. *)
Definition html_upload : files.UploadFile :=
  {| files.filename := Some "page.html"; files.content_type := None;
     files.contents := "x" |}.


(** * Properties *)

(** ** Token decoding *)

Lemma rbind_Ok {A B} (m : Jose.result A) (k : A -> Jose.result B) (b : B) :
  Jose.rbind m k = Jose.Ok b -> exists a, m = Jose.Ok a /\ k a = Jose.Ok b.
Proof. destruct m as [a|e]; simpl; [eauto | discriminate]. Qed.

Lemma validate_str_Ok (claims : pydict) (k : string) :
  Jose.validate_str claims k = Jose.Ok tt ->
  claims !! k = None \/ exists s, claims !! k = Some (VStr s).
Proof.
  unfold Jose.validate_str.
  destruct (claims !! k) as [[| | |s|]|]; try discriminate; eauto.
Qed.

(** A payload that passes the claim checks names its subject by a string,
    or not at all. *)
Lemma validate_claims_sub ios (claims : pydict) now :
  Jose.validate_claims ios claims now = Jose.Ok tt ->
  claims !! "sub" = None \/ exists s, claims !! "sub" = Some (VStr s).
Proof.
  unfold Jose.validate_claims. intros H.
  do 4 (apply rbind_Ok in H as [[] [_ H]]).
  apply rbind_Ok in H as [[] [Hsub _]].
  now apply validate_str_Ok.
Qed.

(** A payload whose [exp] is an integer before the current second is
    refused. *)
Lemma validate_claims_expired ios (claims : pydict) now exp :
  claims !! "exp" = Some (VInt exp) -> exp < now ->
  Jose.validate_claims ios claims now <> Jose.Ok tt.
Proof.
  intros Hexp Hlt H. unfold Jose.validate_claims in H.
  do 2 (apply rbind_Ok in H as [[] [_ H]]).
  apply rbind_Ok in H as [[] [H _]].
  unfold Jose.validate_time in H. rewrite Hexp in H. simpl in H.
  unfold Jose.check in H.
  destruct (exp <? now) eqn:E; [discriminate | lia].
Qed.

(** [decode] hands back the payload of the token, and only of a token
    signed with the verification key whose claims pass the checks. *)
Lemma decode_Ok_inv ios tok key algorithms utcnow claims :
  Jose.decode ios tok key algorithms utcnow = Jose.Ok claims ->
  exists alg,
    tok = Jose.Jws alg claims key /\ alg ∈ algorithms /\
    Jose.can_sign alg key = true /\
    Jose.validate_claims ios claims (timegm utcnow) = Jose.Ok tt.
Proof.
  destruct tok as [s|alg payload signed_with]; simpl; [discriminate|].
  destruct (bool_decide (alg ∈ algorithms)) eqn:Halg; simpl; [|discriminate].
  destruct (Jose.can_sign alg key) eqn:Hkey; simpl; [|discriminate].
  destruct (bool_decide (signed_with = key)) eqn:Hsig; simpl; [|discriminate].
  destruct (Jose.json_object payload); simpl; [|discriminate].
  intros H. apply rbind_Ok in H as [[] [Hv Hc]].
  apply bool_decide_eq_true in Halg, Hsig. subst signed_with.
  injection Hc as <-. exists alg. auto.
Qed.

Lemma decode_opaque ios s key algorithms utcnow :
  exists e, Jose.decode ios (Jose.Opaque s) key algorithms utcnow = Jose.Err e.
Proof. simpl. eauto. Qed.

Lemma decode_wrong_key ios alg payload signed_with key algorithms utcnow :
  signed_with <> key ->
  exists e,
    Jose.decode ios (Jose.Jws alg payload signed_with) key algorithms utcnow
    = Jose.Err e.
Proof.
  intros Hne. simpl.
  destruct (bool_decide (alg ∈ algorithms)); simpl; [|eauto].
  rewrite (bool_decide_eq_false_2 _ Hne), andb_false_r. simpl. eauto.
Qed.

Lemma decode_expired ios alg payload signed_with key algorithms utcnow exp :
  payload !! "exp" = Some (VInt exp) -> exp < timegm utcnow ->
  exists e,
    Jose.decode ios (Jose.Jws alg payload signed_with) key algorithms utcnow
    = Jose.Err e.
Proof.
  intros Hexp Hlt.
  destruct (Jose.decode _ _ _ _ _) as [claims|e] eqn:E; [|eauto].
  apply decode_Ok_inv in E as (alg' & Htok & _ & _ & Hv).
  injection Htok as -> -> ->.
  now destruct (validate_claims_expired ios claims (timegm utcnow) exp).
Qed.

(** ** [auth_utils.get_current_user] *)

(** The function by cases on the decoder's answer. *)
Lemma token_validation_cases s ios tok utcnow :
  auth_utils.get_current_user s ios tok utcnow =
  match Jose.decode ios tok (SECRET_KEY s) [ALGORITHM s] utcnow with
  | Jose.Ok claims =>
      match claims !! "sub" with
      | Some (VStr email) => Return {["email" := VStr email]}
      | _ => Raise (HTTPExc auth_utils.credentials_exception)
      end
  | Jose.Err _ => Raise (HTTPExc auth_utils.credentials_exception)
  end.
Proof.
  unfold auth_utils.get_current_user.
  destruct (Jose.decode _ _ _ _ _) as [claims|e] eqn:E; simpl.
  - apply decode_Ok_inv in E as (alg & _ & _ & _ & Hv).
    apply validate_claims_sub in Hv as [Hn | [email Hs]];
      unfold dict_get; rewrite ?Hn, ?Hs; reflexivity.
  - now destruct e.
Qed.

(** Whatever makes validation fail, the exception raised is the one
    [credentials_exception] of this module. *)
Lemma token_validation_error s ios tok utcnow e :
  auth_utils.get_current_user s ios tok utcnow = Raise e ->
  e = HTTPExc auth_utils.credentials_exception.
Proof.
  rewrite token_validation_cases.
  destruct (Jose.decode _ _ _ _ _) as [claims|j]; [|congruence].
  destruct (claims !! "sub") as [[| | |email|]|]; congruence.
Qed.

Lemma token_validation_return s ios tok utcnow d :
  auth_utils.get_current_user s ios tok utcnow = Return d ->
  exists claims email,
    Jose.decode ios tok (SECRET_KEY s) [ALGORITHM s] utcnow = Jose.Ok claims /\
    claims !! "sub" = Some (VStr email) /\
    d = {["email" := VStr email]}.
Proof.
  rewrite token_validation_cases.
  destruct (Jose.decode _ _ _ _ _) as [claims|j]; [|discriminate].
  destruct (claims !! "sub") as [[| | |email|]|] eqn:Hs; try discriminate.
  intros [= <-]. eauto.
Qed.

Lemma token_defect_rejected s ios tok utcnow :
  token_defect s utcnow tok ->
  auth_utils.get_current_user s ios tok utcnow
  = Raise (HTTPExc auth_utils.credentials_exception).
Proof.
  intros Hd. rewrite token_validation_cases.
  destruct Hd as [str | alg payload key Hk | alg payload key exp He Hlt
                 | alg payload key Hs].
  - reflexivity.
  - now destruct (decode_wrong_key ios alg payload key (SECRET_KEY s)
                    [ALGORITHM s] utcnow Hk) as [e ->].
  - now destruct (decode_expired ios alg payload key (SECRET_KEY s)
                    [ALGORITHM s] utcnow exp He Hlt) as [e ->].
  - destruct (Jose.decode _ _ _ _ _) as [claims|e] eqn:E; [|reflexivity].
    apply decode_Ok_inv in E as (alg' & Htok & _).
    injection Htok as -> -> ->. now rewrite Hs.
Qed.

(** ** [routers.auth.get_current_user] *)

(** The dependency by cases: the token, then the rows that carry its
    subject. The session is only read. *)
Lemma resolve_cases s ios tok utcnow faults db :
  auth.get_current_user s ios tok utcnow faults db =
  (db,
   match auth_utils.get_current_user s ios tok utcnow with
   | Raise e => Raise e
   | Return d =>
       match d !! "email" with
       | Some (VStr email) =>
           if execute_fails faults then Raise (HTTPExc lookup_failed)
           else match select_user_by_email email (users db) with
                | [] => Raise (HTTPExc auth.credentials_exception)
                | [u] => Return (<["id" := VInt (models.id u)]>
                                   {["email" := VStr (models.email u)]})
                | _ => Raise (HTTPExc lookup_failed)
                end
       | Some VNone | None => Raise (HTTPExc auth.credentials_exception)
       | Some _ => Raise (HTTPExc lookup_failed)
       end
   end).
Proof.
  unfold auth.get_current_user, bind, lift, try_except, raise, ret.
  destruct (auth_utils.get_current_user s ios tok utcnow) as [d|e] eqn:E; simpl.
  - unfold dict_get.
    destruct (d !! "email") as [[| | |email|]|]; simpl; try reflexivity.
    unfold db_execute. destruct (execute_fails faults); simpl; [reflexivity|].
    now destruct (select_user_by_email email (users db)) as [|u [|u' rest]].
  - apply token_validation_error in E as ->. reflexivity.
Qed.

(** Every failure of the dependency, by the stage that caused it. *)
Lemma resolve_failure_stage s ios tok utcnow faults db db' e :
  auth.get_current_user s ios tok utcnow faults db = (db', Raise e) ->
  db' = db /\
  ((auth_utils.get_current_user s ios tok utcnow
      = Raise (HTTPExc auth_utils.credentials_exception) /\
    e = HTTPExc auth_utils.credentials_exception) \/
   (exists email,
      auth_utils.get_current_user s ios tok utcnow
        = Return {["email" := VStr email]} /\
      execute_fails faults = false /\
      select_user_by_email email (users db) = [] /\
      e = HTTPExc auth.credentials_exception) \/
   (exists email,
      auth_utils.get_current_user s ios tok utcnow
        = Return {["email" := VStr email]} /\
      (execute_fails faults = true \/
       (2 <= length (select_user_by_email email (users db)))%nat) /\
      e = HTTPExc lookup_failed)).
Proof.
  rewrite resolve_cases. intros [= <- H]. split; [reflexivity|].
  destruct (auth_utils.get_current_user s ios tok utcnow) as [d|e'] eqn:E.
  - right.
    apply token_validation_return in E as (claims & email & _ & _ & ->).
    rewrite lookup_singleton_eq in H.
    destruct (execute_fails faults) eqn:Hf.
    + injection H as <-. right. exists email. auto.
    + destruct (select_user_by_email email (users db)) as [|u [|u' rest]] eqn:Hsel.
      * injection H as <-. left. exists email. auto.
      * discriminate.
      * injection H as <-. right. exists email.
        split; [reflexivity|]. split; [right; rewrite Hsel; simpl; lia | reflexivity].
  - left. pose proof (token_validation_error _ _ _ _ _ E) as ->.
    injection H as <-. auto.
Qed.

(** ** The user table *)

Lemma select_cons e (u : models.User) rows :
  select_user_by_email e (u :: rows) =
  if decide (models.email u = e) then u :: select_user_by_email e rows
  else select_user_by_email e rows.
Proof. reflexivity. Qed.

Lemma select_absent e rows :
  (forall u, u ∈ rows -> models.email u <> e) ->
  select_user_by_email e rows = [].
Proof.
  induction rows as [|u rows IH]; intros H; [reflexivity|].
  rewrite select_cons. destruct (decide (models.email u = e)) as [He|_].
  - exfalso. apply (H u); [left | exact He].
  - apply IH. intros v Hv. apply H. now right.
Qed.

Lemma select_absent_inv e rows u :
  select_user_by_email e rows = [] -> u ∈ rows -> models.email u <> e.
Proof.
  intros Hsel Hin He.
  assert (u ∈ select_user_by_email e rows) as Hu
    by (apply list_elem_of_filter; auto).
  rewrite Hsel in Hu. inversion Hu.
Qed.

Lemma select_unique rows u :
  unique_emails rows -> u ∈ rows ->
  select_user_by_email (models.email u) rows = [u].
Proof.
  unfold unique_emails. induction rows as [|v rows IH]; intros Hnd Hin.
  - inversion Hin.
  - rewrite fmap_cons in Hnd. apply NoDup_cons in Hnd as [Hv Hnd].
    rewrite select_cons. apply elem_of_cons in Hin as [->|Hin].
    + rewrite decide_True by reflexivity. f_equal.
      apply select_absent. intros w Hw Heq. apply Hv.
      rewrite <- Heq. now apply list_elem_of_fmap_2.
    + rewrite decide_False; [now apply IH|].
      intros Heq. apply Hv. rewrite Heq. now apply list_elem_of_fmap_2.
Qed.

Lemma select_at_most_one e rows :
  unique_emails rows -> (length (select_user_by_email e rows) <= 1)%nat.
Proof.
  intros Hnd.
  destruct (select_user_by_email e rows) as [|u rest] eqn:Hsel; [simpl; lia|].
  assert (u ∈ select_user_by_email e rows) as Hu by (rewrite Hsel; left).
  apply list_elem_of_filter in Hu as [He Hu]. subst e.
  rewrite (select_unique rows u Hnd Hu) in Hsel.
  injection Hsel as <-. simpl. lia.
Qed.

(** C1 (as amended). Every failure of [resolve] that is not a failure of
    the directory itself is a 401 with the [WWW-Authenticate: Bearer]
    header. The message is "Authentication failed. Token is invalid or
    expired." whenever the token is rejected, which covers a malformed
    token, a signature mismatch, an expired token and a missing [sub];
    it is "Could not validate credentials" when the token is valid and no
    user carries its subject. *)
Theorem resolve_error_by_cause s ios tok utcnow faults db db' e :
  execute_fails faults = false ->
  unique_emails (users db) ->
  auth.get_current_user s ios tok utcnow faults db = (db', Raise e) ->
  exists h,
    e = HTTPExc h /\
    status_code h = HTTP_401_UNAUTHORIZED /\
    headers h = [("WWW-Authenticate", "Bearer")] /\
    (token_defect s utcnow tok ->
     detail h = "Authentication failed. Token is invalid or expired.") /\
    ((auth_utils.get_current_user s ios tok utcnow
        = Raise (HTTPExc auth_utils.credentials_exception) /\
      detail h = "Authentication failed. Token is invalid or expired.") \/
     (exists email,
        auth_utils.get_current_user s ios tok utcnow
          = Return {["email" := VStr email]} /\
        select_user_by_email email (users db) = [] /\
        detail h = "Could not validate credentials")).
Proof.
  intros Hf Hnd H.
  apply resolve_failure_stage in H
    as [_ [[Hrej ->] | [(email & Hok & _ & Hsel & ->) | (email & _ & Hbad & _)]]].
  - exists auth_utils.credentials_exception. repeat split; auto.
  - exists auth.credentials_exception. repeat split; eauto.
    intros Hd. apply (token_defect_rejected s ios) in Hd. congruence.
  - exfalso. destruct Hbad as [Hbad|Hbad]; [congruence|].
    pose proof (select_at_most_one email (users db) Hnd). lia.
Qed.

Lemma resolve_error_by_cause_witness :
  execute_fails no_faults = false /\
  unique_emails (users (get_db [])) /\
  auth.get_current_user default_settings decimal (Jose.Opaque "garbage") noon
    no_faults (get_db [])
  = (get_db [], Raise (HTTPExc auth_utils.credentials_exception)) /\
  exists h,
    HTTPExc auth_utils.credentials_exception = HTTPExc h /\
    status_code h = HTTP_401_UNAUTHORIZED /\
    headers h = [("WWW-Authenticate", "Bearer")] /\
    (token_defect default_settings noon (Jose.Opaque "garbage") ->
     detail h = "Authentication failed. Token is invalid or expired.") /\
    ((auth_utils.get_current_user default_settings decimal
        (Jose.Opaque "garbage") noon
        = Raise (HTTPExc auth_utils.credentials_exception) /\
      detail h = "Authentication failed. Token is invalid or expired.") \/
     (exists email,
        auth_utils.get_current_user default_settings decimal
          (Jose.Opaque "garbage") noon
          = Return {["email" := VStr email]} /\
        select_user_by_email email (users (get_db [])) = [] /\
        detail h = "Could not validate credentials")).
Proof.
  split; [reflexivity|]. split; [apply NoDup_nil_2|]. split; [reflexivity|].
  apply (resolve_error_by_cause default_settings decimal
           (Jose.Opaque "garbage") noon no_faults (get_db []) (get_db []));
    [reflexivity | apply NoDup_nil_2 | reflexivity].
Defined.

(** C1 (as stated) fails: a malformed token and a valid token of a user
    who does not exist are both refused with a 401, with two different
    messages. *)
Lemma resolve_message_depends_on_cause :
  issue default_settings "ghost@x.com" None noon = Return orphan_token /\
  auth.get_current_user default_settings decimal (Jose.Opaque "garbage")
    noon no_faults (get_db [])
  = (get_db [], Raise (HTTPExc auth_utils.credentials_exception)) /\
  auth.get_current_user default_settings decimal orphan_token
    noon no_faults (get_db [])
  = (get_db [], Raise (HTTPExc auth.credentials_exception)) /\
  client_error (HTTPExc auth_utils.credentials_exception)
  = (401, "Authentication failed. Token is invalid or expired.") /\
  client_error (HTTPExc auth.credentials_exception)
  = (401, "Could not validate credentials") /\
  client_error (HTTPExc auth_utils.credentials_exception)
  <> client_error (HTTPExc auth.credentials_exception).
Proof.
  split; [vm_compute; reflexivity|].
  split; [reflexivity|].
  split; [vm_compute; reflexivity|].
  split; [reflexivity|]. split; [reflexivity|]. discriminate.
Qed.

(** C7. A token whose signature verifies and whose expiry lies ahead (the
    decoder accepts it) but whose claims have no [sub] is refused with the
    401 of the token validation; no identity is returned, neither by the
    validation nor by the dependency built on it. *)
Theorem missing_sub_is_rejected s ios tok utcnow claims faults db :
  Jose.decode ios tok (SECRET_KEY s) [ALGORITHM s] utcnow = Jose.Ok claims ->
  claims !! "sub" = None ->
  auth_utils.get_current_user s ios tok utcnow
    = Raise (HTTPExc auth_utils.credentials_exception) /\
  auth.get_current_user s ios tok utcnow faults db
    = (db, Raise (HTTPExc auth_utils.credentials_exception)) /\
  status_code auth_utils.credentials_exception = HTTP_401_UNAUTHORIZED.
Proof.
  intros Hdec Hsub.
  assert (auth_utils.get_current_user s ios tok utcnow
          = Raise (HTTPExc auth_utils.credentials_exception)) as Hrej
    by (rewrite token_validation_cases, Hdec, Hsub; reflexivity).
  split; [exact Hrej|]. split; [|reflexivity].
  rewrite resolve_cases, Hrej. reflexivity.
Qed.

Lemma missing_sub_is_rejected_witness :
  Jose.decode decimal anonymous_token (SECRET_KEY default_settings)
    [ALGORITHM default_settings] noon
  = Jose.Ok {["exp" := VInt 1704715200]} /\
  ({["exp" := VInt 1704715200]} : pydict) !! "sub" = None /\
  auth_utils.get_current_user default_settings decimal anonymous_token noon
    = Raise (HTTPExc auth_utils.credentials_exception) /\
  auth.get_current_user default_settings decimal anonymous_token noon
    no_faults (get_db [alice])
    = (get_db [alice], Raise (HTTPExc auth_utils.credentials_exception)) /\
  status_code auth_utils.credentials_exception = HTTP_401_UNAUTHORIZED.
Proof.
  split; [vm_compute; reflexivity|]. split; [reflexivity|].
  apply (missing_sub_is_rejected default_settings decimal anonymous_token noon
           {["exp" := VInt 1704715200]} no_faults (get_db [alice]));
    [vm_compute; reflexivity | reflexivity].
Defined.

(** ** [login_for_access_token] *)

Lemma login_cases s ctx ud utcnow faults db :
  auth.login_for_access_token s ctx ud utcnow faults db =
  (db,
   if execute_fails faults then
     Raise (HTTPExc
       {| status_code := HTTP_500_INTERNAL_SERVER_ERROR;
          detail := "Database error during user lookup. See backend logs.";
          headers := [] |})
   else match select_user_by_email (schemas.email ud) (users db) with
        | [] => Raise (HTTPExc incorrect_credentials)
        | [u] =>
            match auth_utils.verify_password ctx (schemas.password ud)
                    (models.password_hash u) with
            | Return true =>
                let* t := issue s (models.email u) None utcnow in
                Return (schemas.Token_ t)
            | Return false => Raise (HTTPExc incorrect_credentials)
            | Raise e => Raise e
            end
        | _ =>
            Raise (HTTPExc
              {| status_code := HTTP_500_INTERNAL_SERVER_ERROR;
                 detail := "Database error during user lookup. See backend logs.";
                 headers := [] |})
        end).
Proof.
  unfold auth.login_for_access_token, bind, lift, try_except, raise, ret,
    db_execute.
  destruct (execute_fails faults); simpl; [reflexivity|].
  destruct (select_user_by_email _ _) as [|u [|u' rest]]; simpl;
    try reflexivity.
  destruct (auth_utils.verify_password _ _ _) as [[|]|e]; simpl;
    try reflexivity.
  unfold issue. now destruct (call _).
Qed.

(** C2. A login for an email that no user has and a login for an existing
    user with a password that does not verify fail alike: the same
    [HTTPException], status 401, message "Incorrect email or password". *)
Theorem login_failures_indistinguishable s ctx
    ud1 utcnow1 faults1 db1 ud2 utcnow2 faults2 db2 u :
  execute_fails faults1 = false ->
  execute_fails faults2 = false ->
  (forall v, v ∈ users db1 -> models.email v <> schemas.email ud1) ->
  unique_emails (users db2) ->
  u ∈ users db2 ->
  models.email u = schemas.email ud2 ->
  auth_utils.verify_password ctx (schemas.password ud2) (models.password_hash u)
    = Return false ->
  exists h,
    auth.login_for_access_token s ctx ud1 utcnow1 faults1 db1
      = (db1, Raise (HTTPExc h)) /\
    auth.login_for_access_token s ctx ud2 utcnow2 faults2 db2
      = (db2, Raise (HTTPExc h)) /\
    status_code h = HTTP_401_UNAUTHORIZED /\
    detail h = "Incorrect email or password".
Proof.
  intros Hf1 Hf2 Habsent Hnd Hin Hemail Hverify.
  exists incorrect_credentials. rewrite !login_cases, Hf1, Hf2.
  rewrite (select_absent _ _ Habsent).
  rewrite <- Hemail, (select_unique _ _ Hnd Hin), Hverify.
  auto.
Qed.

Lemma login_failures_indistinguishable_witness :
  exists h,
    auth.login_for_access_token default_settings plain_context
      (schemas.mkUserCreate "nosuchuser@x.com" "anything") noon no_faults
      (get_db [alice])
      = (get_db [alice], Raise (HTTPExc h)) /\
    auth.login_for_access_token default_settings plain_context
      (schemas.mkUserCreate "a@b.com" "wrong") noon no_faults (get_db [alice])
      = (get_db [alice], Raise (HTTPExc h)) /\
    status_code h = HTTP_401_UNAUTHORIZED /\
    detail h = "Incorrect email or password".
Proof.
  apply (login_failures_indistinguishable default_settings plain_context
           (schemas.mkUserCreate "nosuchuser@x.com" "anything") noon no_faults
           (get_db [alice])
           (schemas.mkUserCreate "a@b.com" "wrong") noon no_faults
           (get_db [alice]) alice).
  - reflexivity.
  - reflexivity.
  - intros v Hv. apply list_elem_of_singleton in Hv as ->. discriminate.
  - apply NoDup_singleton.
  - apply list_elem_of_singleton. reflexivity.
  - reflexivity.
  - reflexivity.
Defined.

(** ** [create_access_token] *)

Lemma intdate_lookup_ne (claims : pydict) k k' :
  k <> k' -> Jose.intdate claims k' !! k = claims !! k.
Proof.
  intros Hne. unfold Jose.intdate.
  destruct (claims !! k') as [[| | | |t]|]; try reflexivity.
  now rewrite lookup_insert_ne.
Qed.

Lemma intdate_lookup_keep (claims : pydict) k k' :
  (forall t, claims !! k <> Some (VDatetime t)) ->
  Jose.intdate claims k' !! k = claims !! k.
Proof.
  intros Hk. destruct (decide (k = k')) as [<-|Hne].
  - unfold Jose.intdate.
    destruct (claims !! k) as [[| | | |t]|] eqn:E; rewrite ?E; try reflexivity.
    now destruct (Hk t).
  - now apply intdate_lookup_ne.
Qed.

Lemma convert_time_claims_unfold (claims : pydict) :
  Jose.convert_time_claims claims =
  Jose.intdate (Jose.intdate (Jose.intdate claims "exp") "iat") "nbf".
Proof. reflexivity. Qed.

(** After the conversion the expiry is the whole second of the
    [datetime] that was stored under "exp". *)
Lemma convert_lookup_exp (d : pydict) expire :
  Jose.convert_time_claims (<["exp" := VDatetime expire]> d) !! "exp"
  = Some (VInt (timegm expire)).
Proof.
  rewrite convert_time_claims_unfold, !intdate_lookup_ne by discriminate.
  unfold Jose.intdate. now rewrite !lookup_insert_eq.
Qed.

(** The other entries are those of [d]; only a [datetime] changes its
    representation. *)
Lemma convert_lookup_other (d : pydict) expire k :
  k <> "exp" -> (forall t, d !! k <> Some (VDatetime t)) ->
  Jose.convert_time_claims (<["exp" := VDatetime expire]> d) !! k = d !! k.
Proof.
  intros Hne Hk. rewrite convert_time_claims_unfold.
  assert (Jose.intdate (<["exp" := VDatetime expire]> d) "exp" !! k = d !! k)
    as H1 by (rewrite intdate_lookup_ne, lookup_insert_ne; auto).
  assert (forall c : pydict, c !! k = d !! k ->
          forall k', Jose.intdate c k' !! k = d !! k) as Hstep.
  { intros c Hc k'. rewrite intdate_lookup_keep; [exact Hc|].
    intros t. rewrite Hc. apply Hk. }
  auto.
Qed.

(** The function on a store that holds the caller's dictionary [d] at
    [data]: one new object is allocated, and it alone is written. *)
Lemma create_access_token_spec s (h : heap) data (d : pydict) delta utcnow :
  h !! data = Some d ->
  auth_utils.create_access_token s data delta utcnow h =
  let l := fresh (dom h) in
  match datetime_add utcnow (effective_ttl s delta) with
  | Raise e => (<[l := d]> h, Raise e)
  | Return expire =>
      let claims := Jose.convert_time_claims (<["exp" := VDatetime expire]> d) in
      (<[l := claims]> h,
       match Jose.sign claims (SECRET_KEY s) (ALGORITHM s) with
       | Jose.Ok tok => Return tok
       | Jose.Err _ => Raise (HTTPExc issuance_failed)
       end)
  end.
Proof.
  intros Hd.
  unfold auth_utils.create_access_token, bind, lift, try_except, raise,
    dict_copy, dict_literal, dict_update, jwt_encode.
  rewrite Hd. simpl.
  replace (if optional_truthy delta
           then datetime_add utcnow (default 0 delta)
           else datetime_add utcnow
                  (timedelta_minutes (ACCESS_TOKEN_EXPIRE_MINUTES s)))
    with (datetime_add utcnow (effective_ttl s delta))
    by (unfold effective_ttl; now destruct (optional_truthy delta)).
  destruct (datetime_add utcnow (effective_ttl s delta)) as [expire|e];
    [|reflexivity].
  rewrite !lookup_insert_eq, !insert_insert_eq.
  rewrite <- insert_union_singleton_l.
  now destruct (Jose.sign _ _ _).
Qed.

Lemma sign_Ok_inv (claims : pydict) key alg tok :
  Jose.sign claims key alg = Jose.Ok tok ->
  tok = Jose.Jws alg claims key /\
  Jose.can_sign alg key = true /\ Jose.json_object claims = true.
Proof.
  unfold Jose.sign.
  destruct (Jose.can_sign alg key); simpl; [|discriminate].
  destruct (Jose.json_object claims); simpl; [|discriminate].
  intros [= <-]. auto.
Qed.

(** C9. [create_access_token] leaves the caller's dictionary as it was (and
    every other object that existed before the call): it works on a copy.
    The claims of the issued token are the entries of that dictionary with
    the computed expiry stored under "exp", a [datetime] being written as
    its whole second. *)
Theorem create_access_token_frame s (h : heap) data (d : pydict) delta utcnow
    h' r :
  h !! data = Some d ->
  auth_utils.create_access_token s data delta utcnow h = (h', r) ->
  h' !! data = Some d /\
  (forall l, is_Some (h !! l) -> h' !! l = h !! l) /\
  (forall tok, r = Return tok ->
   exists expire payload,
     datetime_add utcnow (effective_ttl s delta) = Return expire /\
     tok = Jose.Jws (ALGORITHM s) payload (SECRET_KEY s) /\
     payload = Jose.convert_time_claims (<["exp" := VDatetime expire]> d) /\
     payload !! "exp" = Some (VInt (timegm expire)) /\
     (forall k, k <> "exp" -> (forall t, d !! k <> Some (VDatetime t)) ->
                payload !! k = d !! k)).
Proof.
  intros Hd Hrun. rewrite (create_access_token_spec s h data d) in Hrun by done.
  assert (forall (x : pydict) l, is_Some (h !! l) ->
          <[fresh (dom h) := x]> h !! l = h !! l) as Hframe.
  { intros x l Hl. apply lookup_insert_ne. intros <-.
    apply elem_of_dom in Hl. now apply is_fresh in Hl. }
  simpl in Hrun.
  destruct (datetime_add utcnow (effective_ttl s delta)) as [expire|e] eqn:Hadd;
    injection Hrun as <- <-.
  - split; [rewrite Hframe, Hd; eauto|]. split; [auto|].
    intros tok Htok.
    destruct (Jose.sign _ _ _) as [tok'|e] eqn:Hsign; [|discriminate].
    injection Htok as ->. apply sign_Ok_inv in Hsign as (-> & _ & _).
    exists expire, (Jose.convert_time_claims (<["exp" := VDatetime expire]> d)).
    repeat split; auto using convert_lookup_exp, convert_lookup_other.
  - split; [rewrite Hframe, Hd; eauto|]. split; [auto|]. discriminate.
Qed.

Lemma create_access_token_frame_witness :
  sample_heap !! 5%positive = Some sample_claims /\
  exists h' tok,
    auth_utils.create_access_token default_settings 5%positive
      (Some (timedelta_minutes 30)) noon sample_heap = (h', Return tok) /\
    h' !! 5%positive = Some sample_claims /\
    (forall l, is_Some (sample_heap !! l) -> h' !! l = sample_heap !! l) /\
    (forall tok', Return tok = Return tok' ->
     exists expire payload,
       datetime_add noon
         (effective_ttl default_settings (Some (timedelta_minutes 30)))
       = Return expire /\
       tok' = Jose.Jws (ALGORITHM default_settings) payload
                (SECRET_KEY default_settings) /\
       payload
       = Jose.convert_time_claims (<["exp" := VDatetime expire]> sample_claims) /\
       payload !! "exp" = Some (VInt (timegm expire)) /\
       (forall k, k <> "exp" ->
                  (forall t, sample_claims !! k <> Some (VDatetime t)) ->
                  payload !! k = sample_claims !! k)).
Proof.
  split; [reflexivity|].
  eexists _, _. split; [vm_compute; reflexivity|].
  apply (create_access_token_frame default_settings sample_heap 5%positive
           sample_claims (Some (timedelta_minutes 30)) noon);
    [reflexivity | vm_compute; reflexivity].
Defined.

(** When the key can sign and the claims are JSON values, a token is
    issued. *)
Lemma create_access_token_issues s (h : heap) data (d : pydict) delta utcnow
    expire :
  h !! data = Some d ->
  datetime_add utcnow (effective_ttl s delta) = Return expire ->
  Jose.can_sign (ALGORITHM s) (SECRET_KEY s) = true ->
  Jose.json_object
    (Jose.convert_time_claims (<["exp" := VDatetime expire]> d)) = true ->
  (auth_utils.create_access_token s data delta utcnow h).2 =
  Return (Jose.Jws (ALGORITHM s)
            (Jose.convert_time_claims (<["exp" := VDatetime expire]> d))
            (SECRET_KEY s)).
Proof.
  intros Hd Hadd Hkey Hjson.
  rewrite (create_access_token_spec s h data d) by done.
  simpl. rewrite Hadd. simpl. unfold Jose.sign. now rewrite Hkey, Hjson.
Qed.

(** ** Issuing and validating a token for a subject *)

Lemma subject_claims_convert sub expire :
  Jose.convert_time_claims
    (<["exp" := VDatetime expire]> ({["sub" := VStr sub]} : pydict))
  = <["exp" := VInt (timegm expire)]> {["sub" := VStr sub]}.
Proof.
  apply map_eq. intros k.
  destruct (decide (k = "exp")) as [->|Hne].
  - now rewrite convert_lookup_exp, lookup_insert_eq.
  - rewrite lookup_insert_ne by done.
    apply convert_lookup_other; [done|]. intros t.
    destruct (decide (k = "sub")) as [->|Hs];
      [rewrite lookup_singleton_eq | rewrite lookup_singleton_ne];
      congruence.
Qed.

Lemma subject_claims_json sub exp :
  Jose.json_object (<["exp" := VInt exp]> ({["sub" := VStr sub]} : pydict))
  = true.
Proof.
  unfold Jose.json_object. apply forallb_forall. intros [k v] Hin.
  apply list_elem_of_In, elem_of_map_to_list in Hin. simpl.
  destruct (decide (k = "exp")) as [->|Hne].
  - rewrite lookup_insert_eq in Hin. now injection Hin as <-.
  - rewrite lookup_insert_ne in Hin by done.
    apply lookup_singleton_Some in Hin as [_ <-]. reflexivity.
Qed.

(** What [issue] returns, when it returns. *)
Lemma issue_inv s sub delta utcnow tok :
  issue s sub delta utcnow = Return tok ->
  exists expire,
    datetime_add utcnow (effective_ttl s delta) = Return expire /\
    Jose.can_sign (ALGORITHM s) (SECRET_KEY s) = true /\
    tok = Jose.Jws (ALGORITHM s)
            (<["exp" := VInt (timegm expire)]> {["sub" := VStr sub]})
            (SECRET_KEY s).
Proof.
  unfold issue, call, bind, dict_literal. simpl.
  rewrite (create_access_token_spec s _ _ {["sub" := VStr sub]})
    by apply lookup_insert_eq.
  simpl.
  destruct (datetime_add utcnow (effective_ttl s delta)) as [expire|e];
    simpl; [|discriminate].
  rewrite subject_claims_convert.
  destruct (Jose.sign _ _ _) as [tok'|e] eqn:Hsign; [|discriminate].
  intros [= ->]. apply sign_Ok_inv in Hsign as (-> & Hkey & _). eauto.
Qed.

(** And it does return when the key can sign and the expiry is a
    representable date. *)
Lemma issue_spec s sub delta utcnow expire :
  Jose.can_sign (ALGORITHM s) (SECRET_KEY s) = true ->
  datetime_add utcnow (effective_ttl s delta) = Return expire ->
  issue s sub delta utcnow =
  Return (Jose.Jws (ALGORITHM s)
            (<["exp" := VInt (timegm expire)]> {["sub" := VStr sub]})
            (SECRET_KEY s)).
Proof.
  intros Hkey Hadd. unfold issue, call, bind, dict_literal. simpl.
  rewrite (create_access_token_spec s _ _ {["sub" := VStr sub]})
    by apply lookup_insert_eq.
  simpl. rewrite Hadd. simpl. rewrite subject_claims_convert.
  unfold Jose.sign. now rewrite Hkey, subject_claims_json.
Qed.

Lemma subject_claims_validate ios sub exp now :
  Jose.validate_claims ios
    (<["exp" := VInt exp]> ({["sub" := VStr sub]} : pydict)) now
  = if exp <? now then Jose.Err Jose.ExpiredSignatureError else Jose.Ok tt.
Proof.
  unfold Jose.validate_claims, Jose.validate_time, Jose.validate_str,
    Jose.validate_absent.
  rewrite lookup_insert_eq.
  repeat (rewrite lookup_insert_ne by discriminate).
  rewrite lookup_singleton_eq.
  repeat (rewrite lookup_singleton_ne by discriminate).
  simpl. unfold Jose.check. now destruct (exp <? now).
Qed.

(** Validation of a token that carries a subject and an expiry and is
    signed with the configured key: it is accepted until the clock has
    passed the expiry second. *)
Lemma subject_token_validation s ios sub exp utcnow :
  Jose.can_sign (ALGORITHM s) (SECRET_KEY s) = true ->
  auth_utils.get_current_user s ios
    (Jose.Jws (ALGORITHM s) (<["exp" := VInt exp]> {["sub" := VStr sub]})
       (SECRET_KEY s)) utcnow
  = if exp <? timegm utcnow
    then Raise (HTTPExc auth_utils.credentials_exception)
    else Return {["email" := VStr sub]}.
Proof.
  intros Hkey. rewrite token_validation_cases. simpl.
  rewrite bool_decide_eq_true_2 by apply list_elem_of_singleton, eq_refl.
  rewrite Hkey, bool_decide_eq_true_2 by reflexivity.
  rewrite subject_claims_json, subject_claims_validate. simpl.
  destruct (exp <? timegm utcnow); simpl; [reflexivity|].
  rewrite lookup_insert_ne by discriminate. now rewrite lookup_singleton_eq.
Qed.

(** The half of C3 that the code keeps: a token whose expiry second is
    behind the clock is refused, whoever signed it. *)
Lemma expired_token_is_rejected s ios alg payload key exp utcnow :
  payload !! "exp" = Some (VInt exp) -> exp < timegm utcnow ->
  auth_utils.get_current_user s ios (Jose.Jws alg payload key) utcnow
  = Raise (HTTPExc auth_utils.credentials_exception).
Proof.
  intros Hexp Hlt. apply token_defect_rejected.
  now apply (defect_expired s utcnow alg payload key exp).
Qed.

(** A zero [expires_delta] is falsy, so it is replaced by the configured
    default like a missing one. *)
Lemma zero_ttl_is_default s :
  effective_ttl s (Some 0) = effective_ttl s None.
Proof. reflexivity. Qed.

(** C3, evaluated on the code. A token issued with a validity of zero
    carries the default validity: it is the token that is issued when no
    validity is given, and it is accepted at every instant up to the
    second of [utcnow + ACCESS_TOKEN_EXPIRE_MINUTES], the instant of issue
    included. *)
Theorem zero_ttl_token_is_accepted s ios sub utcnow expire later :
  Jose.can_sign (ALGORITHM s) (SECRET_KEY s) = true ->
  datetime_add utcnow (timedelta_minutes (ACCESS_TOKEN_EXPIRE_MINUTES s))
    = Return expire ->
  timegm later <= timegm expire ->
  exists tok,
    issue s sub (Some 0) utcnow = Return tok /\
    issue s sub None utcnow = Return tok /\
    token_expiry tok = Some (timegm expire) /\
    auth_utils.get_current_user s ios tok later
      = Return {["email" := VStr sub]}.
Proof.
  intros Hkey Hadd Hlater.
  exists (Jose.Jws (ALGORITHM s)
            (<["exp" := VInt (timegm expire)]> {["sub" := VStr sub]})
            (SECRET_KEY s)).
  split; [now apply issue_spec|]. split; [now apply issue_spec|].
  split; [simpl; now rewrite lookup_insert_eq|].
  rewrite subject_token_validation by done.
  destruct (timegm expire <? timegm later) eqn:E; [lia | reflexivity].
Qed.

Lemma zero_ttl_token_is_accepted_witness :
  exists tok,
    issue default_settings "a@b.com" (Some 0) noon = Return tok /\
    issue default_settings "a@b.com" None noon = Return tok /\
    token_expiry tok = Some (timegm (noon + timedelta_minutes 10080)) /\
    auth_utils.get_current_user default_settings decimal tok noon
      = Return {["email" := VStr "a@b.com"]}.
Proof.
  apply (zero_ttl_token_is_accepted default_settings decimal "a@b.com" noon
           (noon + timedelta_minutes 10080) noon);
    [reflexivity | reflexivity | vm_compute; discriminate].
Defined.

(** C4. For a token issued for subject [sub], with the directory answering:
    when a user with that email exists and the token has not expired,
    [resolve] returns that user's email and id; when no user with that
    email exists, it fails with a 401. *)
Theorem resolve_issued_token s ios sub delta issued_at tok utcnow faults db :
  issue s sub delta issued_at = Return tok ->
  execute_fails faults = false ->
  unique_emails (users db) ->
  (exists exp, token_expiry tok = Some exp) /\
  (forall u,
     u ∈ users db -> models.email u = sub ->
     (forall exp, token_expiry tok = Some exp -> timegm utcnow <= exp) ->
     auth.get_current_user s ios tok utcnow faults db
     = (db, Return (identity u)) /\
     identity u !! "email" = Some (VStr sub)) /\
  ((forall u, u ∈ users db -> models.email u <> sub) ->
   exists h,
     auth.get_current_user s ios tok utcnow faults db = (db, Raise (HTTPExc h)) /\
     status_code h = HTTP_401_UNAUTHORIZED).
Proof.
  intros Hissue Hf Hnd.
  apply issue_inv in Hissue as (expire & _ & Hkey & ->).
  assert (token_expiry
            (Jose.Jws (ALGORITHM s)
               (<["exp" := VInt (timegm expire)]> {["sub" := VStr sub]})
               (SECRET_KEY s)) = Some (timegm expire)) as Hexp
    by (simpl; now rewrite lookup_insert_eq).
  split; [eauto|]. split.
  - intros u Hin Hemail Hvalid. specialize (Hvalid _ Hexp).
    rewrite resolve_cases, subject_token_validation by done.
    destruct (timegm expire <? timegm utcnow) eqn:E; [lia|].
    rewrite lookup_singleton_eq, Hf, <- Hemail, (select_unique _ _ Hnd Hin).
    split; [reflexivity|].
    unfold identity. rewrite lookup_insert_ne by discriminate.
    apply lookup_singleton_eq.
  - intros Habsent.
    rewrite resolve_cases, subject_token_validation by done.
    destruct (timegm expire <? timegm utcnow).
    + exists auth_utils.credentials_exception. auto.
    + rewrite lookup_singleton_eq, Hf, (select_absent _ _ Habsent).
      exists auth.credentials_exception. auto.
Qed.

Lemma resolve_issued_token_witness :
  issue default_settings "a@b.com" None noon = Return alice_token /\
  issue default_settings "ghost@x.com" None noon = Return orphan_token /\
  auth.get_current_user default_settings decimal alice_token (noon + 1)
    no_faults (get_db [alice])
  = (get_db [alice], Return (identity alice)) /\
  exists h,
    auth.get_current_user default_settings decimal orphan_token (noon + 1)
      no_faults (get_db [alice])
    = (get_db [alice], Raise (HTTPExc h)) /\
    status_code h = HTTP_401_UNAUTHORIZED.
Proof.
  split; [vm_compute; reflexivity|]. split; [vm_compute; reflexivity|]. split.
  - apply (resolve_issued_token default_settings decimal "a@b.com" None noon
             alice_token (noon + 1) no_faults (get_db [alice]));
      [vm_compute; reflexivity | reflexivity | apply NoDup_singleton
      | apply list_elem_of_singleton; reflexivity | reflexivity |].
    intros exp [= <-]. vm_compute. discriminate.
  - apply (resolve_issued_token default_settings decimal "ghost@x.com" None
             noon orphan_token (noon + 1) no_faults (get_db [alice]));
      [vm_compute; reflexivity | reflexivity | apply NoDup_singleton |].
    intros u Hu. apply list_elem_of_singleton in Hu as ->. discriminate.
Defined.

(** ** [register_user] *)

Lemma select_app e rows rows' :
  select_user_by_email e (rows ++ rows')
  = (select_user_by_email e rows ++ select_user_by_email e rows')%list.
Proof. apply filter_app. Qed.

Lemma select_nil_not_elem e rows :
  select_user_by_email e rows = [] -> e ∉ models.email <$> rows.
Proof.
  intros Hsel Hin. apply list_elem_of_fmap in Hin as (u & -> & Hu).
  now apply (select_absent_inv _ _ u Hsel).
Qed.

(** The handler in a new session on [rows], by cases. *)
Lemma register_cases s ctx ud salt utcnow faults rows :
  auth.register_user s ctx ud salt utcnow faults (get_db rows) =
  if execute_fails faults then
    (get_db rows, Raise (HTTPExc existence_check_failed))
  else
    match select_user_by_email (schemas.email ud) rows with
    | [] =>
        match auth_utils.get_password_hash ctx (schemas.password ud) salt with
        | Raise e => (get_db rows, Raise e)
        | Return hashed =>
            if commit_fails faults then
              (get_db rows, Raise (HTTPExc registration_failed))
            else
              let u := new_row rows (schemas.email ud) hashed in
              (get_db (rows ++ [u]),
               if refresh_fails faults then Raise (HTTPExc registration_failed)
               else let* t := issue s (schemas.email ud) None utcnow in
                    Return (schemas.Token_ t))
        end
    | [_] => (get_db rows, Raise (HTTPExc already_registered))
    | _ => (get_db rows, Raise (HTTPExc existence_check_failed))
    end.
Proof.
  unfold auth.register_user, bind, lift, try_except, raise, ret, db_execute.
  destruct (execute_fails faults); simpl; [reflexivity|].
  destruct (select_user_by_email (schemas.email ud) rows)
    as [|u [|u' rest]] eqn:Hsel; simpl; try reflexivity.
  destruct (auth_utils.get_password_hash _ _ _) as [hashed|e]; simpl;
    [|reflexivity].
  unfold db_commit, db_refresh, db_rollback. simpl.
  destruct (commit_fails faults); simpl; [reflexivity|].
  rewrite bool_decide_eq_false_2 by now apply select_nil_not_elem.
  simpl.
  destruct (refresh_fails faults); simpl; [reflexivity|].
  rewrite select_app, Hsel, select_cons, decide_True by reflexivity.
  simpl. unfold issue, new_row. now destruct (call _).
Qed.

(** The unique index holds after every registration. *)
Lemma register_keeps_unique s ctx ud salt utcnow faults rows db' r :
  unique_emails rows ->
  auth.register_user s ctx ud salt utcnow faults (get_db rows) = (db', r) ->
  unique_emails (users db') /\ pending db' = [].
Proof.
  intros Hnd. rewrite register_cases.
  destruct (execute_fails faults); [intros [= <- _]; auto|].
  destruct (select_user_by_email _ _) as [|u [|u' rest]] eqn:Hsel;
    try (intros [= <- _]; auto).
  destruct (auth_utils.get_password_hash _ _ _) as [hashed|e];
    [|intros [= <- _]; auto].
  destruct (commit_fails faults); intros [= <- _]; [auto|].
  split; [|reflexivity]. unfold unique_emails. simpl.
  rewrite fmap_app. apply NoDup_app. split; [exact Hnd|]. split.
  - intros e He Hnew. apply list_elem_of_singleton in Hnew. simpl in Hnew.
    subst e. now apply (select_nil_not_elem _ _ Hsel).
  - apply NoDup_singleton.
Qed.

(** Registration of an email that a row of the table already carries is
    refused with the 400, whatever the password; nothing is written. *)
Lemma register_existing_email s ctx ud salt utcnow faults rows u :
  execute_fails faults = false ->
  unique_emails rows ->
  u ∈ rows ->
  models.email u = schemas.email ud ->
  auth.register_user s ctx ud salt utcnow faults (get_db rows)
  = (get_db rows, Raise (HTTPExc already_registered)).
Proof.
  intros Hf Hnd Hin Hemail.
  now rewrite register_cases, Hf, <- Hemail, (select_unique _ _ Hnd Hin).
Qed.

(** C5. After a successful registration of an email, a second registration
    of the same email, with whatever password, fails with the 400 "Email
    already registered" and leaves the table as it was: the one row for the
    email still carries the hash that the first registration stored. *)
Theorem second_registration_rejected s ctx
    ud1 salt1 utcnow1 faults1 rows db1 tok1 ud2 salt2 utcnow2 faults2 :
  auth.register_user s ctx ud1 salt1 utcnow1 faults1 (get_db rows)
    = (db1, Return tok1) ->
  schemas.email ud2 = schemas.email ud1 ->
  execute_fails faults2 = false ->
  exists u hashed,
    auth_utils.get_password_hash ctx (schemas.password ud1) salt1
      = Return hashed /\
    models.password_hash u = hashed /\
    select_user_by_email (schemas.email ud1) (users db1) = [u] /\
    auth.register_user s ctx ud2 salt2 utcnow2 faults2 (get_db (users db1))
      = (get_db (users db1), Raise (HTTPExc already_registered)) /\
    status_code already_registered = HTTP_400_BAD_REQUEST.
Proof.
  intros H1 Hemail Hf2. rewrite register_cases in H1.
  destruct (execute_fails faults1); [discriminate|].
  destruct (select_user_by_email (schemas.email ud1) rows)
    as [|u [|u' rest]] eqn:Hsel; try discriminate.
  destruct (auth_utils.get_password_hash _ _ _) as [hashed|e];
    [|discriminate].
  destruct (commit_fails faults1); [discriminate|].
  simpl in H1. injection H1 as <- _.
  exists (new_row rows (schemas.email ud1) hashed), hashed.
  assert (select_user_by_email (schemas.email ud1)
            (rows ++ [new_row rows (schemas.email ud1) hashed])
          = [new_row rows (schemas.email ud1) hashed]) as Hone.
  { now rewrite select_app, Hsel, select_cons, decide_True. }
  repeat split; [exact Hone|].
  rewrite register_cases, Hf2, Hemail. simpl. now rewrite Hone.
Qed.

Lemma second_registration_rejected_witness :
  exists db1 tok1,
    auth.register_user default_settings plain_context
      (schemas.mkUserCreate "a@b.com" "pw") "salt1" noon no_faults (get_db [])
    = (db1, Return tok1) /\
    exists u hashed,
      auth_utils.get_password_hash plain_context "pw" "salt1" = Return hashed /\
      models.password_hash u = hashed /\
      select_user_by_email "a@b.com" (users db1) = [u] /\
      auth.register_user default_settings plain_context
        (schemas.mkUserCreate "a@b.com" "pw2") "salt2" (noon + 1) no_faults
        (get_db (users db1))
      = (get_db (users db1), Raise (HTTPExc already_registered)) /\
      status_code already_registered = HTTP_400_BAD_REQUEST.
Proof.
  eexists _, _. split; [vm_compute; reflexivity|].
  eapply (second_registration_rejected default_settings plain_context
            (schemas.mkUserCreate "a@b.com" "pw") "salt1" noon no_faults []
            _ _
            (schemas.mkUserCreate "a@b.com" "pw2") "salt2" (noon + 1) no_faults);
    [vm_compute; reflexivity | reflexivity | reflexivity].
Defined.

(** The case of C8 that the code keeps: when the commit of the new user
    fails, registration fails with the 500 "Registration failed due to a
    critical database error.", and after the rollback the table and the
    session are what they were before the call. *)
Lemma failed_commit_leaves_no_user s ctx ud salt utcnow faults rows hashed :
  execute_fails faults = false ->
  select_user_by_email (schemas.email ud) rows = [] ->
  auth_utils.get_password_hash ctx (schemas.password ud) salt = Return hashed ->
  commit_fails faults = true ->
  auth.register_user s ctx ud salt utcnow faults (get_db rows)
    = (get_db rows, Raise (HTTPExc registration_failed)) /\
  status_code registration_failed = HTTP_500_INTERNAL_SERVER_ERROR.
Proof.
  intros Hf Hsel Hhash Hcommit.
  now rewrite register_cases, Hf, Hsel, Hhash, Hcommit.
Qed.

Lemma failed_commit_leaves_no_user_witness :
  auth.register_user default_settings plain_context
    (schemas.mkUserCreate "new@x.com" "pw") "salt2" noon
    {| execute_fails := false; commit_fails := true; refresh_fails := false |}
    (get_db [alice])
  = (get_db [alice], Raise (HTTPExc registration_failed)) /\
  status_code registration_failed = HTTP_500_INTERNAL_SERVER_ERROR.
Proof.
  apply (failed_commit_leaves_no_user default_settings plain_context
           (schemas.mkUserCreate "new@x.com" "pw") "salt2" noon
           {| execute_fails := false; commit_fails := true;
              refresh_fails := false |}
           [alice] "pw$salt2");
    reflexivity.
Defined.

(** C8, evaluated on the code. The persistence block of the handler is
    [add], [commit] and [refresh] under one [except SQLAlchemyError]. When
    the commit succeeds and the [refresh] after it raises, the rollback
    has nothing left to undo: the handler answers with the 500
    "Registration failed due to a critical database error." although the
    new row is stored, so the table after the failed call is not the
    table before it. *)
Theorem failed_refresh_keeps_user s ctx ud salt utcnow faults rows hashed :
  execute_fails faults = false ->
  select_user_by_email (schemas.email ud) rows = [] ->
  auth_utils.get_password_hash ctx (schemas.password ud) salt = Return hashed ->
  commit_fails faults = false ->
  refresh_fails faults = true ->
  auth.register_user s ctx ud salt utcnow faults (get_db rows)
    = (get_db (rows ++ [new_row rows (schemas.email ud) hashed]),
       Raise (HTTPExc registration_failed)).
Proof.
  intros Hf Hsel Hhash Hcommit Hrefresh.
  now rewrite register_cases, Hf, Hsel, Hhash, Hcommit, Hrefresh.
Qed.

Lemma failed_refresh_keeps_user_witness :
  auth.register_user default_settings plain_context
    (schemas.mkUserCreate "new@x.com" "pw") "salt2" noon
    {| execute_fails := false; commit_fails := false; refresh_fails := true |}
    (get_db [alice])
  = (get_db [alice; new_row [alice] "new@x.com" "pw$salt2"],
     Raise (HTTPExc registration_failed)) /\
  users (get_db [alice; new_row [alice] "new@x.com" "pw$salt2"])
  <> users (get_db [alice]).
Proof.
  split; [|discriminate].
  apply (failed_refresh_keeps_user default_settings plain_context
           (schemas.mkUserCreate "new@x.com" "pw") "salt2" noon
           {| execute_fails := false; commit_fails := false;
              refresh_fails := true |}
           [alice] "pw$salt2");
    reflexivity.
Defined.

(** ** [upload_file] *)

Lemma replace_removes old new s :
  old <> new -> occurs old (files.replace old new s) = false.
Proof.
  intros Hne. induction s as [|c s IH]; [reflexivity|]. simpl.
  rewrite IH, orb_false_r.
  destruct (Ascii.eqb c old) eqn:E; [|exact E].
  apply Ascii.eqb_neq. congruence.
Qed.

Lemma replace_keeps_absent c old new s :
  c <> new -> occurs c s = false -> occurs c (files.replace old new s) = false.
Proof.
  intros Hne. induction s as [|c' s IH]; [reflexivity|]. simpl.
  intros H. apply orb_false_iff in H as [Hc Hs]. rewrite (IH Hs), orb_false_r.
  destruct (Ascii.eqb c' old); [|exact Hc].
  apply Ascii.eqb_neq. congruence.
Qed.

(** The sanitised name holds neither a slash nor a backslash. *)
Lemma safe_filename_no_separator name :
  occurs "/" (safe_filename name) = false /\
  occurs "\" (safe_filename name) = false.
Proof.
  unfold safe_filename. split.
  - apply replace_keeps_absent; [discriminate|].
    apply replace_removes. discriminate.
  - apply replace_removes. discriminate.
Qed.

(** A name without a slash is a single component, unless it is empty or
    ".", which [pathlib] drops. *)
Lemma split_slash_single s :
  occurs "/" s = false -> pathlib.split_slash s = [s].
Proof.
  induction s as [|c s IH]; [reflexivity|]. simpl. intros H.
  apply orb_false_iff in H as [Hc Hs]. now rewrite Hc, (IH Hs).
Qed.

Lemma components_single s :
  occurs "/" s = false -> s <> "" -> s <> "." -> pathlib.components s = [s].
Proof.
  intros Hs Hne Hdot. unfold pathlib.components.
  rewrite (split_slash_single s Hs). rewrite filter_cons_True by auto.
  reflexivity.
Qed.

(** Handed a [User] object, the handler stores a traversal attempt inside
    the directory of that user. *)
Example upload_as_user_object :
  exists disk',
    files.upload_file traversal_upload (files.Orm alice) io_ok empty_disk
    = (disk',
       Return (<["message" := VStr "File uploaded successfully"]>
               (<["filename" := VStr ".._.._etc_passwd"]>
               (<["path" := VStr "user_uploads/1/.._.._etc_passwd"]>
               {["user_id" := VInt 1]})))) /\
    files disk' !! ["user_uploads"; "1"; ".._.._etc_passwd"] = Some "x".
Proof. eexists. split; vm_compute; reflexivity. Qed.

(** Handed a dictionary, the handler raises [AttributeError] at the first
    attribute it reads, before any directory or file is touched. *)
Lemma upload_file_dict file d io_fails disk :
  files.upload_file file (files.Dict d) io_fails disk
  = (disk, Raise (PyExc "AttributeError")).
Proof.
  unfold files.upload_file, bind, lift, raise, ret.
  now destruct (files.allowed (files.content_type file)).
Qed.

(** C10, evaluated on the code. For every upload whose bearer token
    resolves to an identity, the handler receives that identity as a
    dictionary, raises [AttributeError] on [current_user.id] (or
    [current_user.email]) and leaves the disk as it was: no storage path
    is built and nothing is stored. *)
Theorem authenticated_upload_raises s ios tok utcnow faults file io_fails
    db disk db' ident :
  auth.get_current_user s ios tok utcnow faults db = (db', Return ident) ->
  upload_route s ios tok utcnow faults file io_fails (db, disk)
  = ((db, disk), Raise (PyExc "AttributeError")) /\
  client_error (PyExc "AttributeError") = (500, "Internal Server Error").
Proof.
  intros Hauth. split; [|reflexivity].
  assert (db' = db) as -> by (rewrite resolve_cases in Hauth; congruence).
  unfold upload_route, bind, zoom_l, zoom_r. simpl.
  rewrite Hauth. simpl. now rewrite upload_file_dict.
Qed.

Lemma authenticated_upload_raises_witness :
  auth.get_current_user default_settings decimal alice_token (noon + 1)
    no_faults (get_db [alice])
  = (get_db [alice], Return (identity alice)) /\
  upload_route default_settings decimal alice_token (noon + 1) no_faults
    traversal_upload io_ok (get_db [alice], empty_disk)
  = ((get_db [alice], empty_disk), Raise (PyExc "AttributeError")) /\
  client_error (PyExc "AttributeError") = (500, "Internal Server Error").
Proof.
  split; [vm_compute; reflexivity|].
  apply (authenticated_upload_raises default_settings decimal alice_token
           (noon + 1) no_faults traversal_upload io_ok (get_db [alice])
           empty_disk (get_db [alice]) (identity alice)).
  vm_compute. reflexivity.
Defined.

(** * Further properties of the code *)

(** ** Token issuance: failures *)

(** X1. When the configured key and algorithm cannot sign, or the claims
    with their expiry are not JSON values, [create_access_token] raises
    the 500 "Server security mechanism failed. Cannot issue token." and
    the caller's dictionary is as before. *)
Theorem create_access_token_signing_failure s (h : heap) data (d : pydict)
    delta utcnow expire :
  h !! data = Some d ->
  datetime_add utcnow (effective_ttl s delta) = Return expire ->
  Jose.can_sign (ALGORITHM s) (SECRET_KEY s) = false \/
  Jose.json_object
    (Jose.convert_time_claims (<["exp" := VDatetime expire]> d)) = false ->
  exists h',
    auth_utils.create_access_token s data delta utcnow h
    = (h', Raise (HTTPExc issuance_failed)) /\
    h' !! data = Some d /\
    client_error (HTTPExc issuance_failed)
    = (500, "Server security mechanism failed. Cannot issue token.").
Proof.
  intros Hd Hadd Hbad.
  destruct (auth_utils.create_access_token s data delta utcnow h)
    as [h' r] eqn:Hrun.
  destruct (create_access_token_frame _ _ _ _ _ _ _ _ Hd Hrun) as (Hkeep & _).
  rewrite (create_access_token_spec s h data d) in Hrun by done.
  simpl in Hrun. rewrite Hadd in Hrun. injection Hrun as <- <-.
  eexists. split; [|split; [exact Hkeep | reflexivity]].
  f_equal. unfold Jose.sign.
  destruct Hbad as [-> | Hjson]; [reflexivity|].
  rewrite Hjson. now destruct (Jose.can_sign _ _).
Qed.

Lemma create_access_token_signing_failure_witness :
  exists h',
    auth_utils.create_access_token misconfigured 5%positive None noon
      sample_heap
    = (h', Raise (HTTPExc issuance_failed)) /\
    h' !! 5%positive = Some sample_claims /\
    client_error (HTTPExc issuance_failed)
    = (500, "Server security mechanism failed. Cannot issue token.").
Proof.
  apply (create_access_token_signing_failure misconfigured sample_heap
           5%positive sample_claims None noon
           (noon + timedelta_minutes 10080));
    [reflexivity | reflexivity | left; reflexivity].
Defined.

(** X2. When [utcnow + validity] is not a representable date, the
    [OverflowError] of the addition escapes [create_access_token]: the
    addition is outside the [try], so no [HTTPException] is raised, and
    the caller's dictionary is as before. *)
Theorem create_access_token_overflow s (h : heap) data (d : pydict) delta
    utcnow :
  h !! data = Some d ->
  utcnow + effective_ttl s delta < DATETIME_MIN \/
  DATETIME_MAX < utcnow + effective_ttl s delta ->
  exists h',
    auth_utils.create_access_token s data delta utcnow h
    = (h', Raise (PyExc "OverflowError")) /\
    h' !! data = Some d.
Proof.
  intros Hd Hout.
  destruct (auth_utils.create_access_token s data delta utcnow h)
    as [h' r] eqn:Hrun.
  destruct (create_access_token_frame _ _ _ _ _ _ _ _ Hd Hrun) as (Hkeep & _).
  rewrite (create_access_token_spec s h data d) in Hrun by done.
  simpl in Hrun. unfold datetime_add in Hrun.
  replace ((DATETIME_MIN <=? utcnow + effective_ttl s delta) &&
           (utcnow + effective_ttl s delta <=? DATETIME_MAX))
    with false in Hrun
    by (symmetry; apply andb_false_iff; destruct Hout; [left|right]; lia).
  injection Hrun as <- <-. eauto.
Qed.

Lemma create_access_token_overflow_witness :
  exists h',
    auth_utils.create_access_token default_settings 5%positive
      (Some (timedelta_minutes 5000000000)) noon sample_heap
    = (h', Raise (PyExc "OverflowError")) /\
    h' !! 5%positive = Some sample_claims.
Proof.
  apply (create_access_token_overflow default_settings sample_heap 5%positive
           sample_claims (Some (timedelta_minutes 5000000000)) noon);
    [reflexivity | right; vm_compute; reflexivity].
Defined.

(** ** Token validation: what is accepted *)

(** X3. The validity window of an issued token. The token carries the
    whole second of [utcnow + validity]; validation accepts it at every
    instant whose second is not after that second, the expiry second
    included, and refuses it with the 401 at every later instant. *)
Theorem issued_token_window s ios sub delta utcnow tok :
  issue s sub delta utcnow = Return tok ->
  exists expire,
    datetime_add utcnow (effective_ttl s delta) = Return expire /\
    token_expiry tok = Some (timegm expire) /\
    (forall later, timegm later <= timegm expire ->
       auth_utils.get_current_user s ios tok later
       = Return {["email" := VStr sub]}) /\
    (forall later, timegm expire < timegm later ->
       auth_utils.get_current_user s ios tok later
       = Raise (HTTPExc auth_utils.credentials_exception)).
Proof.
  intros Hissue. apply issue_inv in Hissue as (expire & Hadd & Hkey & ->).
  exists expire. split; [exact Hadd|].
  split; [simpl; now rewrite lookup_insert_eq|].
  split; intros later Hl; rewrite subject_token_validation by done;
    destruct (timegm expire <? timegm later) eqn:E; try reflexivity; lia.
Qed.

Lemma issued_token_window_witness :
  exists expire,
    datetime_add noon (effective_ttl default_settings None) = Return expire /\
    token_expiry alice_token = Some (timegm expire) /\
    (forall later, timegm later <= timegm expire ->
       auth_utils.get_current_user default_settings decimal alice_token later
       = Return {["email" := VStr "a@b.com"]}) /\
    (forall later, timegm expire < timegm later ->
       auth_utils.get_current_user default_settings decimal alice_token later
       = Raise (HTTPExc auth_utils.credentials_exception)).
Proof.
  apply (issued_token_window default_settings decimal "a@b.com" None noon
           alice_token).
  vm_compute. reflexivity.
Defined.

Lemma timegm_mono a b : a <= b -> timegm a <= timegm b.
Proof. intros H. unfold timegm. apply Z.div_le_mono; lia. Qed.

Lemma timegm_second_back a delta :
  delta <= -1000000 -> timegm (a + delta) < timegm a.
Proof.
  intros H. unfold timegm.
  assert ((a + delta) / 1000000 <= (a + -1 * 1000000) / 1000000) as Hle
    by (apply Z.div_le_mono; lia).
  rewrite Z.div_add in Hle by lia. lia.
Qed.

(** X4. A token issued with a validity of minus one second or less is
    refused from the instant of issue on. *)
Theorem negative_ttl_token_is_rejected s ios sub delta utcnow tok later :
  issue s sub (Some delta) utcnow = Return tok ->
  delta <= -1000000 ->
  utcnow <= later ->
  auth_utils.get_current_user s ios tok later
  = Raise (HTTPExc auth_utils.credentials_exception).
Proof.
  intros Hissue Hneg Hlater.
  destruct (issued_token_window s ios sub (Some delta) utcnow tok Hissue)
    as (expire & Hadd & _ & _ & Hrej).
  apply Hrej.
  assert (effective_ttl s (Some delta) = delta) as Httl.
  { unfold effective_ttl, optional_truthy, timedelta_truthy. simpl.
    destruct (delta =? 0) eqn:E; [lia | reflexivity]. }
  rewrite Httl in Hadd. unfold datetime_add in Hadd.
  destruct ((DATETIME_MIN <=? utcnow + delta) &&
            (utcnow + delta <=? DATETIME_MAX)); [|discriminate].
  injection Hadd as <-.
  pose proof (timegm_second_back utcnow delta Hneg).
  pose proof (timegm_mono utcnow later Hlater). lia.
Qed.

Lemma negative_ttl_token_is_rejected_witness :
  exists tok,
    issue default_settings "a@b.com" (Some (-1000000)) noon = Return tok /\
    auth_utils.get_current_user default_settings decimal tok noon
    = Raise (HTTPExc auth_utils.credentials_exception).
Proof.
  eexists. split; [vm_compute; reflexivity|].
  eapply (negative_ttl_token_is_rejected default_settings decimal "a@b.com"
            (-1000000) noon _ noon);
    [vm_compute; reflexivity | vm_compute; discriminate
    | vm_compute; discriminate].
Defined.

(** X5. A token issued under one configuration is refused under a
    configuration with another secret or another algorithm. *)
Theorem token_of_other_settings_is_rejected s1 s2 ios sub delta utcnow tok
    later :
  issue s1 sub delta utcnow = Return tok ->
  SECRET_KEY s2 <> SECRET_KEY s1 \/ ALGORITHM s2 <> ALGORITHM s1 ->
  auth_utils.get_current_user s2 ios tok later
  = Raise (HTTPExc auth_utils.credentials_exception).
Proof.
  intros Hissue Hdiff. apply issue_inv in Hissue as (expire & _ & _ & ->).
  destruct Hdiff as [Hkey | Halg].
  - apply token_defect_rejected. apply defect_signature. congruence.
  - rewrite token_validation_cases. simpl.
    rewrite bool_decide_eq_false_2; [reflexivity|].
    intros Hin. apply list_elem_of_singleton in Hin. congruence.
Qed.

Lemma token_of_other_settings_is_rejected_witness :
  auth_utils.get_current_user
    {| SECRET_KEY := "rotated"; ALGORITHM := "HS256";
       ACCESS_TOKEN_EXPIRE_MINUTES := 10080 |} decimal alice_token noon
  = Raise (HTTPExc auth_utils.credentials_exception).
Proof.
  apply (token_of_other_settings_is_rejected default_settings
           {| SECRET_KEY := "rotated"; ALGORITHM := "HS256";
              ACCESS_TOKEN_EXPIRE_MINUTES := 10080 |}
           decimal "a@b.com" None noon alice_token noon);
    [vm_compute; reflexivity | left; discriminate].
Defined.

(** X6. Validation is sound: an identity is returned only for a token
    that is signed with the configured secret under the configured
    algorithm, whose subject is a string (the email returned) and whose
    integer expiry, if it has one, is not behind the clock. *)
Theorem token_validation_sound s ios tok utcnow d :
  auth_utils.get_current_user s ios tok utcnow = Return d ->
  exists claims email,
    tok = Jose.Jws (ALGORITHM s) claims (SECRET_KEY s) /\
    claims !! "sub" = Some (VStr email) /\
    d = {["email" := VStr email]} /\
    (forall exp, claims !! "exp" = Some (VInt exp) -> timegm utcnow <= exp).
Proof.
  intros H. apply token_validation_return in H as (claims & email & Hdec & Hsub & ->).
  apply decode_Ok_inv in Hdec as (alg & -> & Halg & _ & Hv).
  apply list_elem_of_singleton in Halg as ->.
  exists claims, email. repeat split; auto.
  intros exp Hexp.
  destruct (Z_lt_le_dec exp (timegm utcnow)) as [Hlt|Hle]; [|exact Hle].
  now destruct (validate_claims_expired ios claims (timegm utcnow) exp).
Qed.

Lemma token_validation_sound_witness :
  exists claims email,
    alice_token
    = Jose.Jws (ALGORITHM default_settings) claims
        (SECRET_KEY default_settings) /\
    claims !! "sub" = Some (VStr email) /\
    ({["email" := VStr "a@b.com"]} : pydict) = {["email" := VStr email]} /\
    (forall exp, claims !! "exp" = Some (VInt exp) -> timegm noon <= exp).
Proof.
  apply (token_validation_sound default_settings decimal alice_token noon).
  vm_compute. reflexivity.
Defined.

(** X7. No expiry is required: a token signed with the configured key
    that carries a subject and nothing else is accepted at every
    instant. *)
Theorem token_without_expiry_is_accepted s ios sub utcnow :
  Jose.can_sign (ALGORITHM s) (SECRET_KEY s) = true ->
  auth_utils.get_current_user s ios
    (Jose.Jws (ALGORITHM s) {["sub" := VStr sub]} (SECRET_KEY s)) utcnow
  = Return {["email" := VStr sub]}.
Proof.
  intros Hkey. rewrite token_validation_cases. simpl.
  rewrite bool_decide_eq_true_2 by apply list_elem_of_singleton, eq_refl.
  rewrite Hkey, bool_decide_eq_true_2 by reflexivity. simpl.
  assert (Jose.json_object ({["sub" := VStr sub]} : pydict) = true) as ->.
  { unfold Jose.json_object. now rewrite map_to_list_singleton. }
  unfold Jose.validate_claims, Jose.validate_time, Jose.validate_str,
    Jose.validate_absent.
  rewrite lookup_singleton_eq.
  repeat (rewrite lookup_singleton_ne by discriminate).
  simpl. now rewrite lookup_singleton_eq.
Qed.

Lemma token_without_expiry_is_accepted_witness :
  auth_utils.get_current_user default_settings decimal eternal_token
    DATETIME_MAX
  = Return {["email" := VStr "a@b.com"]}.
Proof.
  apply (token_without_expiry_is_accepted default_settings decimal "a@b.com"
           DATETIME_MAX).
  reflexivity.
Defined.

(** ** The dependency [routers.auth.get_current_user] *)

(** X8. [resolve] is sound: the identity it returns is the email and id of
    a row of the table, the email is the subject of the token, the token
    is signed with the configured secret and algorithm and not expired,
    and the password hash is not part of the identity. The session is
    left as it was. *)
Theorem resolve_sound s ios tok utcnow faults db db' d :
  auth.get_current_user s ios tok utcnow faults db = (db', Return d) ->
  db' = db /\
  exists u claims,
    u ∈ users db /\
    d = identity u /\
    tok = Jose.Jws (ALGORITHM s) claims (SECRET_KEY s) /\
    claims !! "sub" = Some (VStr (models.email u)) /\
    (forall exp, claims !! "exp" = Some (VInt exp) -> timegm utcnow <= exp) /\
    d !! "password_hash" = None.
Proof.
  rewrite resolve_cases. intros [= <- H]. split; [reflexivity|].
  destruct (auth_utils.get_current_user s ios tok utcnow) as [d0|e] eqn:Hval;
    [|discriminate].
  apply token_validation_sound in Hval
    as (claims & email & -> & Hsub & -> & Hexp).
  rewrite lookup_singleton_eq in H.
  destruct (execute_fails faults); [discriminate|].
  destruct (select_user_by_email email (users db)) as [|u [|u' rest]] eqn:Hsel;
    try discriminate.
  injection H as <-.
  assert (u ∈ select_user_by_email email (users db)) as Hu
    by (rewrite Hsel; left).
  apply list_elem_of_filter in Hu as [He Hu]. subst email.
  exists u, claims. repeat split; auto.
Qed.

Lemma resolve_sound_witness :
  get_db [alice] = get_db [alice] /\
  exists u claims,
    u ∈ users (get_db [alice]) /\
    identity alice = identity u /\
    alice_token
    = Jose.Jws (ALGORITHM default_settings) claims
        (SECRET_KEY default_settings) /\
    claims !! "sub" = Some (VStr (models.email u)) /\
    (forall exp, claims !! "exp" = Some (VInt exp) -> timegm noon <= exp) /\
    identity alice !! "password_hash" = None.
Proof.
  apply (resolve_sound default_settings decimal alice_token noon no_faults
           (get_db [alice]) (get_db [alice]) (identity alice)).
  vm_compute. reflexivity.
Defined.

(** X9. The token is checked before the directory is consulted: a
    defective token (malformed, signed with another key, expired, without
    subject) is refused with the 401 of the validation whatever the state
    of the database, also when every round trip to it fails. *)
Theorem defective_token_rejected_before_lookup s ios tok utcnow faults db :
  token_defect s utcnow tok ->
  auth.get_current_user s ios tok utcnow faults db
  = (db, Raise (HTTPExc auth_utils.credentials_exception)).
Proof.
  intros Hd. rewrite resolve_cases.
  now rewrite (token_defect_rejected s ios tok utcnow Hd).
Qed.

Lemma defective_token_rejected_before_lookup_witness :
  auth.get_current_user default_settings decimal (Jose.Opaque "garbage") noon
    database_down (get_db [alice])
  = (get_db [alice], Raise (HTTPExc auth_utils.credentials_exception)).
Proof.
  apply (defective_token_rejected_before_lookup default_settings decimal
           (Jose.Opaque "garbage") noon database_down (get_db [alice])).
  apply defect_malformed.
Defined.

(** X10. When the lookup raises a [SQLAlchemyError], each handler answers
    with a 500 of its own and writes nothing: registration whatever the
    request, login whatever the credentials, and the dependency for every
    token that passed validation. *)
Theorem lookup_failure_is_500 s ctx ios ud salt utcnow faults rows tok email :
  execute_fails faults = true ->
  auth_utils.get_current_user s ios tok utcnow
    = Return {["email" := VStr email]} ->
  auth.register_user s ctx ud salt utcnow faults (get_db rows)
    = (get_db rows, Raise (HTTPExc existence_check_failed)) /\
  auth.login_for_access_token s ctx ud utcnow faults (get_db rows)
    = (get_db rows, Raise (HTTPExc login_lookup_failed)) /\
  auth.get_current_user s ios tok utcnow faults (get_db rows)
    = (get_db rows, Raise (HTTPExc lookup_failed)) /\
  status_code existence_check_failed = HTTP_500_INTERNAL_SERVER_ERROR /\
  status_code login_lookup_failed = HTTP_500_INTERNAL_SERVER_ERROR /\
  status_code lookup_failed = HTTP_500_INTERNAL_SERVER_ERROR.
Proof.
  intros Hf Hval.
  rewrite register_cases, login_cases, resolve_cases, Hf, Hval.
  rewrite lookup_singleton_eq. repeat split; reflexivity.
Qed.

Lemma lookup_failure_is_500_witness :
  auth.register_user default_settings plain_context
    (schemas.mkUserCreate "a@b.com" "pw") "salt1" noon database_down
    (get_db [alice])
    = (get_db [alice], Raise (HTTPExc existence_check_failed)) /\
  auth.login_for_access_token default_settings plain_context
    (schemas.mkUserCreate "a@b.com" "pw") noon database_down (get_db [alice])
    = (get_db [alice], Raise (HTTPExc login_lookup_failed)) /\
  auth.get_current_user default_settings decimal alice_token noon
    database_down (get_db [alice])
    = (get_db [alice], Raise (HTTPExc lookup_failed)) /\
  status_code existence_check_failed = HTTP_500_INTERNAL_SERVER_ERROR /\
  status_code login_lookup_failed = HTTP_500_INTERNAL_SERVER_ERROR /\
  status_code lookup_failed = HTTP_500_INTERNAL_SERVER_ERROR.
Proof.
  apply (lookup_failure_is_500 default_settings plain_context decimal
           (schemas.mkUserCreate "a@b.com" "pw") "salt1" noon database_down
           [alice] alice_token "a@b.com");
    [reflexivity | vm_compute; reflexivity].
Defined.

(** ** [login_for_access_token] *)

(** Login and the dependency only read: whatever the request, the
    faults and the outcome, the session and the table are returned as
    they were. *)
Lemma login_and_resolve_write_nothing s ctx ios ud tok utcnow faults db :
  (auth.login_for_access_token s ctx ud utcnow faults db).1 = db /\
  (auth.get_current_user s ios tok utcnow faults db).1 = db.
Proof. now rewrite login_cases, resolve_cases. Qed.

(** X11. A login with the email of a user and a password that verifies
    against the stored hash returns a bearer token for that email, which
    validation accepts until the expiry second. *)
Theorem login_success s ctx ios ud utcnow faults db u expire later :
  execute_fails faults = false ->
  unique_emails (users db) ->
  u ∈ users db ->
  models.email u = schemas.email ud ->
  auth_utils.verify_password ctx (schemas.password ud) (models.password_hash u)
    = Return true ->
  Jose.can_sign (ALGORITHM s) (SECRET_KEY s) = true ->
  datetime_add utcnow (timedelta_minutes (ACCESS_TOKEN_EXPIRE_MINUTES s))
    = Return expire ->
  timegm later <= timegm expire ->
  exists tok,
    auth.login_for_access_token s ctx ud utcnow faults db
    = (db, Return {| schemas.access_token := tok;
                     schemas.token_type := "bearer" |}) /\
    issue s (schemas.email ud) None utcnow = Return tok /\
    auth_utils.get_current_user s ios tok later
    = Return {["email" := VStr (schemas.email ud)]}.
Proof.
  intros Hf Hnd Hin Hemail Hverify Hkey Hadd Hlater.
  pose proof (issue_spec s (schemas.email ud) None utcnow expire Hkey Hadd)
    as Hissue.
  eexists. split; [|split; [exact Hissue|]].
  - rewrite login_cases, Hf, <- Hemail, (select_unique _ _ Hnd Hin), Hverify.
    rewrite Hemail, Hissue. reflexivity.
  - rewrite subject_token_validation by done.
    destruct (timegm expire <? timegm later) eqn:E; [lia | reflexivity].
Qed.

Lemma login_success_witness :
  exists tok,
    auth.login_for_access_token default_settings plain_context
      (schemas.mkUserCreate "a@b.com" "pw") noon no_faults (get_db [alice])
    = (get_db [alice],
       Return {| schemas.access_token := tok;
                 schemas.token_type := "bearer" |}) /\
    issue default_settings "a@b.com" None noon = Return tok /\
    auth_utils.get_current_user default_settings decimal tok (noon + 1)
    = Return {["email" := VStr "a@b.com"]}.
Proof.
  apply (login_success default_settings plain_context decimal
           (schemas.mkUserCreate "a@b.com" "pw") noon no_faults
           (get_db [alice]) alice (noon + timedelta_minutes 10080) (noon + 1));
    [reflexivity | apply NoDup_singleton
    | apply list_elem_of_singleton; reflexivity | reflexivity | reflexivity
    | reflexivity | reflexivity | vm_compute; discriminate].
Defined.

(** X12. An exception of the hasher on the stored hash is not handled by
    the login handler: it escapes as it is (a plain 500 for the client,
    not the 401 of a wrong password), and nothing is written. *)
Theorem login_hasher_exception_escapes s ctx ud utcnow faults db u e :
  execute_fails faults = false ->
  unique_emails (users db) ->
  u ∈ users db ->
  models.email u = schemas.email ud ->
  auth_utils.verify_password ctx (schemas.password ud) (models.password_hash u)
    = Raise e ->
  auth.login_for_access_token s ctx ud utcnow faults db = (db, Raise e).
Proof.
  intros Hf Hnd Hin Hemail Hverify.
  now rewrite login_cases, Hf, <- Hemail, (select_unique _ _ Hnd Hin), Hverify.
Qed.

Lemma login_hasher_exception_escapes_witness :
  auth.login_for_access_token default_settings raising_context
    (schemas.mkUserCreate "a@b.com" "pw") noon no_faults (get_db [alice])
  = (get_db [alice], Raise (PyExc "UnknownHashError")) /\
  client_error (PyExc "UnknownHashError") = (500, "Internal Server Error").
Proof.
  split; [|reflexivity].
  apply (login_hasher_exception_escapes default_settings raising_context
           (schemas.mkUserCreate "a@b.com" "pw") noon no_faults
           (get_db [alice]) alice (PyExc "UnknownHashError"));
    [reflexivity | apply NoDup_singleton
    | apply list_elem_of_singleton; reflexivity | reflexivity | reflexivity].
Defined.

(** ** [read_users_me] *)

(** X13. [GET /me] after the dependency: for every identity that
    [resolve] returns, [read_users_me] finds the "email" entry (no
    [KeyError]) and answers with the subject of the token. *)
Theorem me_returns_token_subject s ios tok utcnow faults db db' current_user :
  auth.get_current_user s ios tok utcnow faults db
    = (db', Return current_user) ->
  exists email,
    auth.read_users_me current_user = Return (VStr email) /\
    auth_utils.get_current_user s ios tok utcnow
    = Return {["email" := VStr email]}.
Proof.
  intros H.
  pose proof (resolve_sound _ _ _ _ _ _ _ _ H)
    as (_ & u & claims & _ & -> & -> & Hsub & _).
  exists (models.email u). split.
  - unfold auth.read_users_me, identity.
    rewrite lookup_insert_ne by discriminate.
    now rewrite lookup_singleton_eq.
  - rewrite resolve_cases in H. injection H as _ H.
    destruct (auth_utils.get_current_user _ _ _ _) as [d0|e] eqn:Hval;
      [|discriminate].
    apply token_validation_return in Hval as (c & email & Hdec & Hs & ->).
    apply decode_Ok_inv in Hdec as (alg & Htok & _).
    injection Htok as _ <-. congruence.
Qed.

Lemma me_returns_token_subject_witness :
  exists email,
    auth.read_users_me (identity alice) = Return (VStr email) /\
    auth_utils.get_current_user default_settings decimal alice_token noon
    = Return {["email" := VStr email]}.
Proof.
  apply (me_returns_token_subject default_settings decimal alice_token noon
           no_faults (get_db [alice]) (get_db [alice]) (identity alice)).
  vm_compute. reflexivity.
Defined.

(** ** [register_user]: what a registration leaves behind *)

(** X14. End to end: registration of an email that no row carries, with
    the database answering, appends one row with that email and the hash
    of the password and returns a bearer token; [resolve] on that token
    returns the email and the id of the new row. *)
Theorem register_then_resolve s ctx ios ud salt utcnow faults rows hashed
    expire later faults' :
  execute_fails faults = false ->
  commit_fails faults = false ->
  refresh_fails faults = false ->
  unique_emails rows ->
  (forall v, v ∈ rows -> models.email v <> schemas.email ud) ->
  auth_utils.get_password_hash ctx (schemas.password ud) salt = Return hashed ->
  Jose.can_sign (ALGORITHM s) (SECRET_KEY s) = true ->
  datetime_add utcnow (timedelta_minutes (ACCESS_TOKEN_EXPIRE_MINUTES s))
    = Return expire ->
  execute_fails faults' = false ->
  timegm later <= timegm expire ->
  let u := new_row rows (schemas.email ud) hashed in
  exists tok,
    auth.register_user s ctx ud salt utcnow faults (get_db rows)
    = (get_db (rows ++ [u]),
       Return {| schemas.access_token := tok;
                 schemas.token_type := "bearer" |}) /\
    auth.get_current_user s ios tok later faults' (get_db (rows ++ [u]))
    = (get_db (rows ++ [u]), Return (identity u)).
Proof.
  intros Hf Hc Hr Hnd Habsent Hhash Hkey Hadd Hf' Hlater u.
  pose proof (issue_spec s (schemas.email ud) None utcnow expire Hkey Hadd)
    as Hissue.
  eexists. split.
  - rewrite register_cases, Hf, (select_absent _ _ Habsent), Hhash, Hc, Hr.
    simpl. rewrite Hissue. reflexivity.
  - rewrite resolve_cases, subject_token_validation by done.
    destruct (timegm expire <? timegm later) eqn:E; [lia|].
    rewrite lookup_singleton_eq, Hf'. simpl users.
    rewrite select_app, (select_absent _ _ Habsent), select_cons.
    rewrite decide_True by reflexivity. reflexivity.
Qed.

Lemma register_then_resolve_witness :
  let u := new_row [alice] "new@x.com" "pw$salt2" in
  exists tok,
    auth.register_user default_settings plain_context
      (schemas.mkUserCreate "new@x.com" "pw") "salt2" noon no_faults
      (get_db [alice])
    = (get_db ([alice] ++ [u]),
       Return {| schemas.access_token := tok;
                 schemas.token_type := "bearer" |}) /\
    auth.get_current_user default_settings decimal tok (noon + 1) no_faults
      (get_db ([alice] ++ [u]))
    = (get_db ([alice] ++ [u]), Return (identity u)).
Proof.
  apply (register_then_resolve default_settings plain_context decimal
           (schemas.mkUserCreate "new@x.com" "pw") "salt2" noon no_faults
           [alice] "pw$salt2" (noon + timedelta_minutes 10080) (noon + 1)
           no_faults);
    try reflexivity.
  - apply NoDup_singleton.
  - intros v Hv. apply list_elem_of_singleton in Hv as ->. discriminate.
  - vm_compute. discriminate.
Defined.

(** X15. Register, then log in: after a successful registration, a login
    with the same email and a password that the hasher verifies against
    the stored hash finds the new row and returns a token for that email. *)
Theorem register_then_login s ctx ud salt utcnow faults rows db1 tok1 hashed
    ud' utcnow' faults' expire' :
  auth.register_user s ctx ud salt utcnow faults (get_db rows)
    = (db1, Return tok1) ->
  auth_utils.get_password_hash ctx (schemas.password ud) salt = Return hashed ->
  schemas.email ud' = schemas.email ud ->
  auth_utils.verify_password ctx (schemas.password ud') hashed = Return true ->
  execute_fails faults' = false ->
  datetime_add utcnow' (timedelta_minutes (ACCESS_TOKEN_EXPIRE_MINUTES s))
    = Return expire' ->
  exists tok,
    auth.login_for_access_token s ctx ud' utcnow' faults' (get_db (users db1))
    = (get_db (users db1), Return (schemas.Token_ tok)) /\
    issue s (schemas.email ud) None utcnow' = Return tok.
Proof.
  intros Hreg Hhash Hemail Hverify Hf' Hadd'.
  rewrite register_cases in Hreg.
  destruct (execute_fails faults); [discriminate|].
  destruct (select_user_by_email (schemas.email ud) rows)
    as [|u [|u' rest]] eqn:Hsel; try discriminate.
  rewrite Hhash in Hreg.
  destruct (commit_fails faults); [discriminate|].
  simpl in Hreg. destruct (refresh_fails faults); [discriminate|].
  destruct (issue s (schemas.email ud) None utcnow) as [t|e] eqn:Hissue;
    [|discriminate].
  injection Hreg as <- _.
  apply issue_inv in Hissue as (_ & _ & Hkey & _).
  pose proof (issue_spec s (schemas.email ud) None utcnow' expire' Hkey Hadd')
    as Hissue'.
  eexists. split; [|exact Hissue'].
  rewrite login_cases, Hf', Hemail. simpl.
  rewrite select_app, Hsel, select_cons, decide_True by reflexivity.
  simpl. unfold auth_utils.verify_password in *. simpl.
  rewrite Hverify, Hissue'. reflexivity.
Qed.

Lemma register_then_login_witness :
  exists db1 tok1 tok,
    auth.register_user default_settings plain_context
      (schemas.mkUserCreate "new@x.com" "pw") "salt2" noon no_faults
      (get_db [alice])
    = (db1, Return tok1) /\
    auth.login_for_access_token default_settings plain_context
      (schemas.mkUserCreate "new@x.com" "pw") (noon + 5) no_faults
      (get_db (users db1))
    = (get_db (users db1), Return (schemas.Token_ tok)) /\
    issue default_settings "new@x.com" None (noon + 5) = Return tok.
Proof.
  eexists _, _.
  assert (auth.register_user default_settings plain_context
            (schemas.mkUserCreate "new@x.com" "pw") "salt2" noon no_faults
            (get_db [alice]) = (_, Return _)) as Hreg
    by (vm_compute; reflexivity).
  destruct (register_then_login default_settings plain_context
              (schemas.mkUserCreate "new@x.com" "pw") "salt2" noon no_faults
              [alice] _ _ "pw$salt2"
              (schemas.mkUserCreate "new@x.com" "pw") (noon + 5) no_faults
              (noon + 5 + timedelta_minutes 10080)
              Hreg eq_refl eq_refl eq_refl eq_refl eq_refl)
    as (tok & Hlogin & Hissue).
  exists tok. split; [exact Hreg|]. split; [exact Hlogin | exact Hissue].
Defined.

(** X16. A registration never alters or removes a row: the table
    afterwards is the table before, or the table before with one row
    appended for the requested email and the hash of the password; a
    token is returned only in the second case. The unique index on
    emails is kept and the session holds no unflushed object. *)
Theorem register_appends_at_most_one s ctx ud salt utcnow faults rows db' r :
  unique_emails rows ->
  auth.register_user s ctx ud salt utcnow faults (get_db rows) = (db', r) ->
  unique_emails (users db') /\
  pending db' = [] /\
  (users db' = rows /\ (forall t, r <> Return t) \/
   exists hashed,
     auth_utils.get_password_hash ctx (schemas.password ud) salt
       = Return hashed /\
     (forall v, v ∈ rows -> models.email v <> schemas.email ud) /\
     users db' = (rows ++ [new_row rows (schemas.email ud) hashed])%list).
Proof.
  intros Hnd Hrun.
  destruct (register_keeps_unique _ _ _ _ _ _ _ _ _ Hnd Hrun) as [Hu Hp].
  split; [exact Hu|]. split; [exact Hp|].
  rewrite register_cases in Hrun.
  destruct (execute_fails faults);
    [injection Hrun as <- <-; left; split; [reflexivity | discriminate]|].
  destruct (select_user_by_email (schemas.email ud) rows)
    as [|u [|u' rest]] eqn:Hsel;
    try (injection Hrun as <- <-; left; split; [reflexivity | discriminate]).
  destruct (auth_utils.get_password_hash _ _ _) as [hashed|e];
    [|injection Hrun as <- <-; left; split; [reflexivity | discriminate]].
  destruct (commit_fails faults);
    [injection Hrun as <- <-; left; split; [reflexivity | discriminate]|].
  injection Hrun as <- _. right. exists hashed.
  split; [reflexivity|]. split; [|reflexivity].
  intros v Hv. now apply (select_absent_inv _ _ v Hsel).
Qed.

Lemma register_appends_at_most_one_witness :
  unique_emails (users (get_db [alice])) /\
  pending (get_db [alice]) = [] /\
  (users (get_db [alice]) = [alice] /\
   (forall t : schemas.Token,
      Raise (HTTPExc already_registered) <> Return t) \/
   exists hashed,
     auth_utils.get_password_hash plain_context "pw2" "salt9" = Return hashed /\
     (forall v, v ∈ [alice] -> models.email v <> "a@b.com") /\
     users (get_db [alice])
     = ([alice] ++ [new_row [alice] "a@b.com" hashed])%list).
Proof.
  apply (register_appends_at_most_one default_settings plain_context
           (schemas.mkUserCreate "a@b.com" "pw2") "salt9" noon no_faults
           [alice] (get_db [alice]) (Raise (HTTPExc already_registered)));
    [apply NoDup_singleton | vm_compute; reflexivity].
Defined.

Lemma issue_unusable_key s sub delta utcnow expire :
  Jose.can_sign (ALGORITHM s) (SECRET_KEY s) = false ->
  datetime_add utcnow (effective_ttl s delta) = Return expire ->
  issue s sub delta utcnow = Raise (HTTPExc issuance_failed).
Proof.
  intros Hkey Hadd. unfold issue, call, bind, dict_literal. simpl.
  rewrite (create_access_token_spec s _ _ {["sub" := VStr sub]})
    by apply lookup_insert_eq.
  simpl. rewrite Hadd. simpl. unfold Jose.sign. now rewrite Hkey.
Qed.

(** X17. The user is committed before the token is issued: when the
    configured key and algorithm cannot sign, the registration of a new
    email fails with the 500 of the token issuance although the row is
    stored, and a second attempt with the same email is refused with the
    400 "Email already registered". *)
Theorem register_stores_user_before_token s ctx ud salt utcnow faults rows
    hashed expire ud' salt' utcnow' faults' :
  execute_fails faults = false ->
  commit_fails faults = false ->
  refresh_fails faults = false ->
  (forall v, v ∈ rows -> models.email v <> schemas.email ud) ->
  auth_utils.get_password_hash ctx (schemas.password ud) salt = Return hashed ->
  Jose.can_sign (ALGORITHM s) (SECRET_KEY s) = false ->
  datetime_add utcnow (timedelta_minutes (ACCESS_TOKEN_EXPIRE_MINUTES s))
    = Return expire ->
  schemas.email ud' = schemas.email ud ->
  execute_fails faults' = false ->
  let rows' := (rows ++ [new_row rows (schemas.email ud) hashed])%list in
  auth.register_user s ctx ud salt utcnow faults (get_db rows)
    = (get_db rows', Raise (HTTPExc issuance_failed)) /\
  auth.register_user s ctx ud' salt' utcnow' faults' (get_db rows')
    = (get_db rows', Raise (HTTPExc already_registered)).
Proof.
  intros Hf Hc Hr Habsent Hhash Hkey Hadd Hemail Hf' rows'. split.
  - rewrite register_cases, Hf, (select_absent _ _ Habsent), Hhash, Hc, Hr.
    simpl. now rewrite (issue_unusable_key s _ None utcnow expire Hkey Hadd).
  - rewrite register_cases, Hf', Hemail. unfold rows'.
    rewrite select_app, (select_absent _ _ Habsent), select_cons.
    rewrite decide_True by reflexivity. reflexivity.
Qed.

Lemma register_stores_user_before_token_witness :
  let rows' := ([alice] ++ [new_row [alice] "new@x.com" "pw$salt2"])%list in
  auth.register_user misconfigured plain_context
    (schemas.mkUserCreate "new@x.com" "pw") "salt2" noon no_faults
    (get_db [alice])
    = (get_db rows', Raise (HTTPExc issuance_failed)) /\
  auth.register_user misconfigured plain_context
    (schemas.mkUserCreate "new@x.com" "pw") "salt3" (noon + 9) no_faults
    (get_db rows')
    = (get_db rows', Raise (HTTPExc already_registered)).
Proof.
  apply (register_stores_user_before_token misconfigured plain_context
           (schemas.mkUserCreate "new@x.com" "pw") "salt2" noon no_faults
           [alice] "pw$salt2" (noon + timedelta_minutes 10080)
           (schemas.mkUserCreate "new@x.com" "pw") "salt3" (noon + 9)
           no_faults);
    try reflexivity.
  intros v Hv. apply list_elem_of_singleton in Hv as ->. discriminate.
Defined.

(** ** [upload_file] with a [User] object *)

Lemma occurs_app c (a b : string) :
  occurs c (a +:+ b) = occurs c a || occurs c b.
Proof.
  induction a as [|c' a IH]; [reflexivity|]. simpl.
  now rewrite IH, orb_assoc.
Qed.

Lemma pretty_N_char_plain n c :
  c = "/"%char \/ c = "."%char -> Ascii.eqb (pretty_N_char n) c = false.
Proof.
  intros [-> | ->]; unfold pretty_N_char; repeat case_match; reflexivity.
Qed.

Lemma pretty_N_go_plain c x s :
  c = "/"%char \/ c = "."%char ->
  occurs c s = false -> occurs c (pretty_N_go x s) = false.
Proof.
  intros Hc. revert s. induction (N.lt_wf_0 x) as [x _ IH]. intros s Hs.
  destruct (decide (x = 0)%N) as [->|Hx]; [now rewrite pretty_N_go_0|].
  rewrite pretty_N_go_step by lia. apply IH.
  - apply N.div_lt; lia.
  - simpl. now rewrite (pretty_N_char_plain _ c Hc), Hs.
Qed.

Lemma pretty_N_go_nonempty x s : s <> "" -> pretty_N_go x s <> "".
Proof.
  revert s. induction (N.lt_wf_0 x) as [x _ IH]. intros s Hs.
  destruct (decide (x = 0)%N) as [->|Hx]; [now rewrite pretty_N_go_0|].
  rewrite pretty_N_go_step by lia. apply IH; [apply N.div_lt; lia | discriminate].
Qed.

Lemma pretty_N_plain c (x : N) :
  c = "/"%char \/ c = "."%char -> occurs c (pretty x) = false /\ pretty x <> "".
Proof.
  intros Hc. unfold pretty, pretty_N.
  destruct (decide (x = 0)%N) as [->|Hx].
  - split; [destruct Hc as [-> | ->]; reflexivity | discriminate].
  - split; [now apply pretty_N_go_plain|].
    rewrite pretty_N_go_step by lia. apply pretty_N_go_nonempty. discriminate.
Qed.

(** The decimal numeral of an id is a single path component: it holds no
    slash and no dot and is not empty. *)
Lemma pretty_Z_plain c (z : Z) :
  c = "/"%char \/ c = "."%char -> occurs c (pretty z) = false /\ pretty z <> "".
Proof.
  intros Hc. destruct z as [|p|p]; unfold pretty, pretty_Z.
  - split; [destruct Hc as [-> | ->]; reflexivity | discriminate].
  - apply (pretty_N_plain c (Npos p) Hc).
  - split; [|discriminate].
    change ("-" +:+ pretty p) with (String "-" (pretty (Npos p))). simpl.
    rewrite (proj1 (pretty_N_plain c (Npos p) Hc)).
    destruct Hc as [-> | ->]; reflexivity.
Qed.

Lemma no_slash_not_absolute s : occurs "/" s = false -> String.prefix "/" s = false.
Proof.
  destruct s as [|c s]; [reflexivity|]. intros H. cbn [occurs] in H.
  apply orb_false_iff in H as [Hc _]. cbn [String.prefix].
  destruct (ascii_dec "/" c) as [<-|Hne]; [discriminate | reflexivity].
Qed.

Lemma occurs_dot_ne s : occurs "." s = false -> s <> "." /\ s <> "..".
Proof. intros H; split; intros ->; discriminate. Qed.

(** [Path(UPLOAD_DIR) / str(id)] is the directory of the user. *)
Lemma user_dir_path uid :
  pathlib.joinpath (pathlib.Path_ files.UPLOAD_DIR) (pretty uid)
  = {| pathlib.absolute := false; pathlib.parts := user_dir uid |}.
Proof.
  destruct (pretty_Z_plain "/" uid (or_introl eq_refl)) as [Hs Hne].
  destruct (pretty_Z_plain "." uid (or_intror eq_refl)) as [Hd _].
  unfold pathlib.joinpath. rewrite (no_slash_not_absolute _ Hs).
  rewrite (components_single _ Hs Hne (proj1 (occurs_dot_ne _ Hd))).
  reflexivity.
Qed.

Lemma resolve_user_dir uid :
  pathlib.resolve {| pathlib.absolute := false; pathlib.parts := user_dir uid |}
  = user_dir uid.
Proof.
  destruct (pretty_Z_plain "." uid (or_intror eq_refl)) as [Hd _].
  unfold pathlib.resolve, user_dir. simpl.
  rewrite bool_decide_eq_false_2 by apply (occurs_dot_ne _ Hd). reflexivity.
Qed.

Lemma mkdir_Return p d d1 :
  mkdir_exist_ok p d = (d1, Return tt) ->
  files d1 = files d /\ pathlib.resolve p ∈ dirs d1 /\
  (forall q, q ∈ dirs d -> q ∈ dirs d1).
Proof.
  unfold mkdir_exist_ok.
  destruct (bool_decide (pathlib.resolve p ∈ dirs d)) eqn:Hin.
  - intros [= <-]. apply bool_decide_eq_true in Hin. auto.
  - destruct (bool_decide (is_Some (files d !! pathlib.resolve p)));
      [discriminate|].
    destruct (bool_decide (removelast (pathlib.resolve p) ∈ dirs d));
      simpl; [|discriminate].
    intros [= <-]. simpl. split; [reflexivity|]. split; set_solver.
Qed.

Lemma mkdir_Raise p d d1 e :
  mkdir_exist_ok p d = (d1, Raise e) -> d1 = d.
Proof.
  unfold mkdir_exist_ok.
  repeat (case_match; simpl; try discriminate); now intros [= <-].
Qed.

(** Reading the upload and writing it to [p], the body of the handler's
    [try]: when it succeeds the file holds the upload. *)
Lemma save_Return io file p d1 d2 :
  (contents <- files.file_read io file ;; write_bytes io p contents) d1
    = (d2, Return tt) ->
  (pathlib.resolve p ∉ dirs d1) /\
  files d2 = <[pathlib.resolve p := files.contents file]> (files d1).
Proof.
  unfold bind, files.file_read, write_bytes, raise, ret.
  destruct io as [| | |written]; simpl; try discriminate;
    destruct (bool_decide (pathlib.resolve p ∈ dirs d1)) eqn:Hin;
    try discriminate;
    destruct (bool_decide (removelast (pathlib.resolve p) ∈ dirs d1));
    simpl; try discriminate.
  intros [= <-]. apply bool_decide_eq_false in Hin. auto.
Qed.

(** When it raises, either nothing was touched, or the write failed after
    the file had been opened, and the file holds what was written. *)
Lemma save_Raise io file p d1 d2 e :
  (contents <- files.file_read io file ;; write_bytes io p contents) d1
    = (d2, Raise e) ->
  d2 = d1 \/
  exists written,
    io = write_fails written /\
    (pathlib.resolve p ∉ dirs d1) /\
    files d2
    = <[pathlib.resolve p := String.substring 0 written (files.contents file)]>
        (files d1).
Proof.
  unfold bind, files.file_read, write_bytes, raise, ret.
  destruct io as [| | |written]; simpl;
    try (intros [= <- _]; now left);
    destruct (bool_decide (pathlib.resolve p ∈ dirs d1)) eqn:Hin;
    try (intros [= <- _]; now left);
    destruct (bool_decide (removelast (pathlib.resolve p) ∈ dirs d1));
    simpl; try (intros [= <- _]; now left); try discriminate.
  intros [= <- _]. right. exists written.
  apply bool_decide_eq_false in Hin. auto.
Qed.

(** The handler on a [User] object, an accepted type and a file name. *)
Lemma upload_file_orm_cases file u io d name :
  files.allowed (files.content_type file) = true ->
  files.filename file = Some name ->
  let ud := {| pathlib.absolute := false;
               pathlib.parts := user_dir (models.id u) |} in
  let file_path := pathlib.joinpath ud (safe_filename name) in
  files.upload_file file (files.Orm u) io d =
  match mkdir_exist_ok ud d with
  | (d1, Raise e) => (d1, Raise e)
  | (d1, Return _) =>
      match (contents <- files.file_read io file ;;
             write_bytes io file_path contents) d1 with
      | (d2, Return _) =>
          (d2,
           Return (<["message" := VStr "File uploaded successfully"]>
                   (<["filename" := VStr (safe_filename name)]>
                   (<["path" := VStr (pathlib.str file_path)]>
                   {["user_id" := VInt (models.id u)]}))))
      | (d2, Raise _) => (d2, Raise (HTTPExc could_not_save))
      end
  end.
Proof.
  intros Hct Hname ud file_path.
  unfold files.upload_file, files.file_close, try_finally.
  unfold bind at 1 2 3 4 5 6. unfold lift, raise, ret, try_except.
  rewrite Hct, Hname. simpl. rewrite user_dir_path. fold ud.
  destruct (mkdir_exist_ok ud d) as [d1 [[]|e]]; [|reflexivity].
  fold (safe_filename name). fold file_path.
  unfold bind.
  destruct (files.file_read io file d1) as [d1' [c|e]]; [|reflexivity].
  now destruct (write_bytes io file_path c d1') as [d2 [[]|e]].
Qed.

(** X18. The name under which an upload is stored holds neither "/" nor
    "\", has the length of the client's name, and is the client's name
    itself when that holds no separator. *)
Theorem safe_filename_spec name :
  occurs "/" (safe_filename name) = false /\
  occurs "\" (safe_filename name) = false /\
  String.length (safe_filename name) = String.length name /\
  (occurs "/" name = false -> occurs "\" name = false ->
   safe_filename name = name).
Proof.
  destruct (safe_filename_no_separator name) as [Hs Hb].
  split; [exact Hs|]. split; [exact Hb|].
  assert (forall old new s,
            String.length (files.replace old new s) = String.length s) as Hlen
    by (intros old new s; induction s as [|c s IH]; simpl; congruence).
  assert (forall old new s, occurs old s = false ->
            files.replace old new s = s) as Hid.
  { intros old new s. induction s as [|c s IH]; [reflexivity|]. simpl.
    intros H. apply orb_false_iff in H as [Hc Hrest].
    now rewrite Hc, (IH Hrest). }
  unfold safe_filename. split; [now rewrite !Hlen|].
  intros H1 H2. now rewrite (Hid "/"%char "_"%char name H1), Hid.
Qed.

(** X19. For a content type outside the three accepted ones, or none at
    all, nothing is created on the disk. Handed a [User] object the
    handler raises the 400 that names the type; handed the dictionary that
    the dependency returns it raises [AttributeError] at
    [current_user.email] in the log line, before the 400. *)
Theorem upload_rejects_other_types file current_user io_fails d :
  files.content_type file ∉
    (Some <$> ["application/pdf"; "text/plain";
               "application/vnd.openxmlformats-officedocument.wordprocessingml.document"]) ->
  files.upload_file file current_user io_fails d
  = (d, Raise match current_user with
              | files.Orm _ =>
                  HTTPExc (unsupported_type (files.content_type file))
              | files.Dict _ => PyExc "AttributeError"
              end) /\
  status_code (unsupported_type (files.content_type file))
  = HTTP_400_BAD_REQUEST.
Proof.
  intros Hct. split; [|reflexivity].
  destruct current_user as [dict|u]; [apply upload_file_dict|].
  assert (files.allowed (files.content_type file) = false) as Hal.
  { unfold files.allowed. destruct (files.content_type file) as [t|];
      [|reflexivity].
    apply bool_decide_eq_false_2. intros Hin. apply Hct.
    now apply (list_elem_of_fmap_2 Some). }
  unfold files.upload_file, bind, lift, raise. now rewrite Hal.
Qed.

Lemma upload_rejects_other_types_witness :
  files.upload_file html_upload (files.Orm alice) io_ok empty_disk
  = (empty_disk, Raise (HTTPExc (unsupported_type None))) /\
  files.upload_file html_upload (files.Dict (identity alice)) io_ok empty_disk
  = (empty_disk, Raise (PyExc "AttributeError")) /\
  status_code (unsupported_type None) = HTTP_400_BAD_REQUEST /\
  detail (unsupported_type None)
  = "Unsupported file type: None. Only PDF, TXT, or DOCX are allowed.".
Proof.
  assert (files.content_type html_upload ∉
            (Some <$> ["application/pdf"; "text/plain";
                       "application/vnd.openxmlformats-officedocument.wordprocessingml.document"]))
    as Hct.
  { intros Hin. apply list_elem_of_fmap in Hin as (t & Ht & _). discriminate. }
  split; [|split; [|split; reflexivity]].
  - exact (proj1 (upload_rejects_other_types html_upload (files.Orm alice)
                    io_ok empty_disk Hct)).
  - exact (proj1 (upload_rejects_other_types html_upload
                    (files.Dict (identity alice)) io_ok empty_disk Hct)).
Defined.

Lemma components_degenerate s :
  s = "" \/ s = "." -> pathlib.components s = [].
Proof. now intros [-> | ->]. Qed.

(** The place that the operating system gives the path of an upload. *)
Lemma resolve_file_path uid safe :
  occurs "/" safe = false ->
  pathlib.resolve
    (pathlib.joinpath
       {| pathlib.absolute := false; pathlib.parts := user_dir uid |} safe)
  = if decide (safe = "" \/ safe = ".") then user_dir uid
    else if decide (safe = "..") then [files.UPLOAD_DIR]
    else [files.UPLOAD_DIR; pretty uid; safe].
Proof.
  intros Hs.
  destruct (pretty_Z_plain "." uid (or_intror eq_refl)) as [Hd _].
  pose proof (proj2 (occurs_dot_ne _ Hd)) as Hdd.
  unfold pathlib.joinpath. rewrite (no_slash_not_absolute _ Hs). simpl.
  destruct (decide (safe = "" \/ safe = ".")) as [Hdeg|Hok].
  - rewrite (components_degenerate _ Hdeg).
    change (user_dir uid ++ [])%list with (user_dir uid).
    apply resolve_user_dir.
  - rewrite components_single by tauto.
    unfold pathlib.resolve, user_dir. simpl.
    rewrite (bool_decide_eq_false_2 _ Hdd).
    destruct (decide (safe = "..")) as [->|Hne]; [reflexivity|].
    now rewrite (bool_decide_eq_false_2 _ Hne).
Qed.

Lemma str_file_path uid safe :
  occurs "/" safe = false -> safe <> "" -> safe <> "." ->
  pathlib.str
    (pathlib.joinpath
       {| pathlib.absolute := false; pathlib.parts := user_dir uid |} safe)
  = files.UPLOAD_DIR +:+ "/" +:+ pretty uid +:+ "/" +:+ safe.
Proof.
  intros Hs Hne Hdot.
  unfold pathlib.joinpath. rewrite (no_slash_not_absolute _ Hs). simpl.
  now rewrite components_single.
Qed.

(** X21. Handed a [User] object, on a disk that has the upload directory,
    a successful upload stores exactly one file, directly inside the
    directory of that user: at [UPLOAD_DIR/<id>/<sanitised name>],
    whatever separators and ".." the client's name holds. The returned
    dictionary names that path, the sanitised name and the id. *)
Theorem upload_stays_in_user_dir file u io_fails d d' r :
  [files.UPLOAD_DIR] ∈ dirs d ->
  files.upload_file file (files.Orm u) io_fails d = (d', Return r) ->
  exists name,
    files.filename file = Some name /\
    files.allowed (files.content_type file) = true /\
    r = upload_result (models.id u) name /\
    files d'
    = <[stored_at (models.id u) name := files.contents file]> (files d).
Proof.
  intros Hup Hrun.
  destruct (files.allowed (files.content_type file)) eqn:Hct.
  2:{ unfold files.upload_file, bind, lift, raise in Hrun.
      rewrite Hct in Hrun. discriminate. }
  destruct (files.filename file) as [name|] eqn:Hname.
  2:{ unfold files.upload_file, bind, lift, raise, ret, try_except in Hrun.
      rewrite Hct, Hname in Hrun. simpl in Hrun.
      now destruct (mkdir_exist_ok _ d) as [d1 [[]|e1]]. }
  exists name. split; [reflexivity|]. split; [reflexivity|].
  rewrite (upload_file_orm_cases file u io_fails d name Hct Hname) in Hrun.
  simpl in Hrun.
  destruct (mkdir_exist_ok _ d) as [d1 [[]|e1]] eqn:Hmk; [|discriminate].
  apply mkdir_Return in Hmk as (Hfiles & Hdir & Hsub).
  rewrite resolve_user_dir in Hdir.
  destruct (bind _ _ d1) as [d2 [[]|e2]] eqn:Hw; [|discriminate].
  apply save_Return in Hw as [Hnot Hstore].
  destruct (safe_filename_no_separator name) as [Hs _].
  rewrite (resolve_file_path _ _ Hs) in Hnot, Hstore.
  destruct (decide (safe_filename name = "" \/ safe_filename name = "."))
    as [Hdeg|Hok]; [contradiction|].
  destruct (decide (safe_filename name = "..")) as [Hdd|Hne];
    [exfalso; apply Hnot, Hsub, Hup|].
  injection Hrun as <- <-. split.
  - unfold upload_result. rewrite str_file_path by tauto. reflexivity.
  - now rewrite Hstore, Hfiles.
Qed.

Lemma upload_stays_in_user_dir_witness :
  exists d',
    files.upload_file traversal_upload (files.Orm alice) io_ok empty_disk
    = (d', Return (upload_result 1 "../../etc/passwd")) /\
    exists name,
      files.filename traversal_upload = Some name /\
      files.allowed (files.content_type traversal_upload) = true /\
      upload_result 1 "../../etc/passwd" = upload_result (models.id alice) name /\
      files d'
      = <[stored_at (models.id alice) name := files.contents traversal_upload]>
          (files empty_disk).
Proof.
  eexists. split; [vm_compute; reflexivity|].
  eapply (upload_stays_in_user_dir traversal_upload alice io_ok empty_disk);
    [vm_compute; reflexivity | vm_compute; reflexivity].
Defined.

(** X20. What a failed upload leaves behind. On a disk that has the
    upload directory, when the handler raises, the files are those that
    were there before, with one exception: when the write fails after
    the file was opened (the handler was given a [User] object and
    answers 500), the file at [UPLOAD_DIR/<id>/<sanitised name>] holds the
    bytes written so far, an earlier file of that name being
    overwritten. No other file changes. *)
Theorem failed_upload_leaves_at_most_its_file file current_user io d d' e :
  [files.UPLOAD_DIR] ∈ dirs d ->
  files.upload_file file current_user io d = (d', Raise e) ->
  files d' = files d \/
  exists u name written,
    current_user = files.Orm u /\
    files.filename file = Some name /\
    io = write_fails written /\
    e = HTTPExc could_not_save /\
    files d'
    = <[stored_at (models.id u) name
        := String.substring 0 written (files.contents file)]> (files d).
Proof.
  intros Hup.
  destruct current_user as [dict|u].
  { rewrite upload_file_dict. intros [= <- _]. now left. }
  destruct (files.allowed (files.content_type file)) eqn:Hct.
  2:{ unfold files.upload_file, bind, lift, raise. rewrite Hct. simpl.
      intros [= <- _]. now left. }
  destruct (files.filename file) as [name|] eqn:Hname.
  2:{ unfold files.upload_file, bind, lift, raise, ret, try_except.
      rewrite Hct, Hname. simpl.
      destruct (mkdir_exist_ok _ d) as [d1 [[]|e1]] eqn:Hmk.
      - apply mkdir_Return in Hmk as (Hfiles & _).
        intros [= <- _]. now left.
      - apply mkdir_Raise in Hmk as ->. intros [= <- _]. now left. }
  rewrite (upload_file_orm_cases file u io d name Hct Hname). simpl.
  destruct (mkdir_exist_ok _ d) as [d1 [[]|e1]] eqn:Hmk.
  2:{ apply mkdir_Raise in Hmk as ->. intros [= <- _]. now left. }
  apply mkdir_Return in Hmk as (Hfiles & Hdir & Hsub).
  rewrite resolve_user_dir in Hdir.
  destruct (bind _ _ d1) as [d2 [[]|e2]] eqn:Hw; [discriminate|].
  intros [= <- <-].
  apply save_Raise in Hw as [-> | (written & -> & Hnot & Hstore)];
    [now left|].
  destruct (safe_filename_no_separator name) as [Hs _].
  rewrite (resolve_file_path _ _ Hs) in Hnot, Hstore.
  destruct (decide (safe_filename name = "" \/ safe_filename name = "."))
    as [Hdeg|Hok]; [contradiction|].
  destruct (decide (safe_filename name = "..")) as [Hdd|Hne];
    [exfalso; apply Hnot, Hsub, Hup|].
  right. exists u, name, written. rewrite Hstore, Hfiles. auto.
Qed.

Lemma failed_upload_leaves_at_most_its_file_witness :
  exists d',
    files.upload_file report_upload (files.Orm alice) (write_fails 2)
      empty_disk
    = (d', Raise (HTTPExc could_not_save)) /\
    files d' !! ["user_uploads"; "1"; "report.txt"] = Some "he" /\
    (files d' = files empty_disk \/
     exists u name written,
       files.Orm alice = files.Orm u /\
       files.filename report_upload = Some name /\
       write_fails 2 = write_fails written /\
       HTTPExc could_not_save = HTTPExc could_not_save /\
       files d'
       = <[stored_at (models.id u) name
           := String.substring 0 written (files.contents report_upload)]>
           (files empty_disk)).
Proof.
  eexists. split; [vm_compute; reflexivity|].
  split; [vm_compute; reflexivity|].
  eapply (failed_upload_leaves_at_most_its_file report_upload (files.Orm alice)
            (write_fails 2) empty_disk);
    [vm_compute; reflexivity | vm_compute; reflexivity].
Defined.

(** ** [database.py]: the logged URL *)

Lemma split_nonempty sep s : database.split sep s <> [].
Proof.
  destruct s as [|c s]; simpl; [discriminate|].
  destruct (Ascii.eqb c sep); [discriminate|].
  now destruct (database.split sep s).
Qed.

Lemma split_without_sep sep s :
  occurs sep s = false -> database.split sep s = [s].
Proof.
  induction s as [|c s IH]; [reflexivity|]. simpl. intros H.
  apply orb_false_iff in H as [Hc Hs]. now rewrite Hc, (IH Hs).
Qed.

Lemma last_cons_nonempty {A} (x : A) l dflt :
  l <> [] -> List.last (x :: l) dflt = List.last l dflt.
Proof. now destruct l. Qed.

(** Everything up to an "@" is dropped from the logged text. *)
Lemma logged_url_app creds rest :
  database.logged_url (creds +:+ String "@" rest) = database.logged_url rest.
Proof.
  unfold database.logged_url.
  induction creds as [|c creds IH]; simpl.
  - apply last_cons_nonempty, split_nonempty.
  - destruct (Ascii.eqb c "@").
    + rewrite last_cons_nonempty by apply split_nonempty. exact IH.
    + destruct (database.split "@" (creds +:+ String "@" rest))
        as [|h t] eqn:E; [now destruct (split_nonempty _ _ E)|].
      destruct t as [|h' t].
      * exfalso.
        assert (occurs "@" (creds +:+ String "@" rest) = true) as Hocc
          by (rewrite occurs_app; simpl; apply orb_true_r).
        clear IH. revert h E Hocc.
        generalize (creds +:+ String "@" rest). intros s.
        induction s as [|c' s IHs]; [discriminate|]. simpl.
        destruct (Ascii.eqb c' "@") eqn:Ec.
        -- intros h [= _ Hnil]. now destruct (split_nonempty _ _ Hnil).
        -- simpl. destruct (database.split "@" s) as [|h0 t0] eqn:Es;
             [now destruct (split_nonempty _ _ Es)|].
           intros h [= _ ->] Hocc. now apply (IHs h0).
      * rewrite <- IH. reflexivity.
Qed.

(** X22. The database URL is logged without the credentials: for a URL
    [creds@host] whose [host] part holds no "@", the logged text is
    [host], whatever [creds] is (an "@" inside the password included); a
    URL without "@" is logged whole. *)
Theorem logged_url_hides_credentials creds host :
  occurs "@" host = false ->
  database.logged_url (creds +:+ "@" +:+ host) = host /\
  database.logged_url host = host /\
  occurs "@" (database.logged_url (creds +:+ "@" +:+ host)) = false.
Proof.
  intros Hhost.
  assert (database.logged_url host = host) as Hwhole
    by (unfold database.logged_url; now rewrite split_without_sep).
  change (creds +:+ "@" +:+ host) with (creds +:+ String "@" host).
  rewrite logged_url_app, Hwhole. auto.
Qed.

Lemma logged_url_hides_credentials_witness :
  database.DATABASE_URL
  = "postgresql+asyncpg://user:password" +:+ "@" +:+ "db:5432/docu_sage_db" /\
  database.logged_url
    ("postgresql+asyncpg://user:password" +:+ "@" +:+ "db:5432/docu_sage_db")
  = "db:5432/docu_sage_db" /\
  database.logged_url "db:5432/docu_sage_db" = "db:5432/docu_sage_db" /\
  occurs "@"
    (database.logged_url
       ("postgresql+asyncpg://user:password" +:+ "@" +:+ "db:5432/docu_sage_db"))
  = false.
Proof.
  split; [reflexivity|].
  apply (logged_url_hides_credentials "postgresql+asyncpg://user:password"
           "db:5432/docu_sage_db").
  reflexivity.
Defined.
